(** * Diagnostics subsystem of the Elm language server

    A shallow embedding of [src/providers/diagnostics/diagnosticsProvider.ts]
    (the aggregator [DiagnosticsProvider]) together with the parts of the rule
    engine that the test-suite [test/diagnosticTests/elmDiagnostics.test.ts]
    exercises.

    Layout: the data model and the operations first, the theorems after. *)

From Stdlib Require Import String List Bool Arith PeanoNat Lia.
Import ListNotations.
Open Scope string_scope.
Open Scope list_scope.

Set Implicit Arguments.

(* ===================================================================== *)
(** * Diagnostics as the language-server protocol has them *)
(* ===================================================================== *)

Inductive DiagnosticSeverity : Type :=
| Error
| Warning
| Information
| Hint.

Inductive DiagnosticTag : Type :=
| Unnecessary
| Deprecated.

Record Position : Type := mkPosition {
  line : nat;
  character : nat
}.

(** [end] is a keyword, hence [end_]. *)
Record Range : Type := mkRange {
  start : Position;
  end_ : Position
}.

Record Diagnostic : Type := mkDiagnostic {
  code : string;
  message : string;
  source : string;
  severity : DiagnosticSeverity;
  range : Range;
  tags : list DiagnosticTag
}.

Definition severityEquals (a b : DiagnosticSeverity) : bool :=
  match a, b with
  | Error, Error | Warning, Warning
  | Information, Information | Hint, Hint => true
  | _, _ => false
  end.

Definition tagEquals (a b : DiagnosticTag) : bool :=
  match a, b with
  | Unnecessary, Unnecessary | Deprecated, Deprecated => true
  | _, _ => false
  end.

Definition positionEquals (a b : Position) : bool :=
  Nat.eqb (line a) (line b) && Nat.eqb (character a) (character b).

Definition rangeEquals (a b : Range) : bool :=
  positionEquals (start a) (start b) && positionEquals (end_ a) (end_ b).

Definition hasTag (t : DiagnosticTag) (ts : list DiagnosticTag) : bool :=
  existsb (tagEquals t) ts.

(** Tags are compared as sets: the order in which they are listed is
    irrelevant. *)
Definition tagsEquals (a b : list DiagnosticTag) : bool :=
  forallb (fun t => hasTag t b) a && forallb (fun t => hasTag t a) b.

(** Modelled from the spec: [diagnosticsEquals] of [fileDiagnostics.ts], which
    is imported by the sources but is not among them.  Two diagnostics are
    equal iff code, message, severity, range and tags are all equal. *)
Definition diagnosticsEquals (a b : Diagnostic) : bool :=
  String.eqb (code a) (code b)
  && String.eqb (message a) (message b)
  && severityEquals (severity a) (severity b)
  && rangeEquals (range a) (range b)
  && tagsEquals (tags a) (tags b).

(* ===================================================================== *)
(** * The JavaScript [Map] keyed by strings

    A [Map] iterates in insertion order and [set] on a key that is present
    keeps the key's position, so the container is an association list with
    at most one entry per key. *)
(* ===================================================================== *)

Module JsMap.

Section Ops.
Context {V : Type}.

Definition t : Type := list (string * V).

Definition empty : t := [].

Fixpoint get (k : string) (m : t) : option V :=
  match m with
  | [] => None
  | (k', v) :: rest => if String.eqb k k' then Some v else get k rest
  end.

Definition has (k : string) (m : t) : bool :=
  match get k m with
  | Some _ => true
  | None => false
  end.

Fixpoint set (k : string) (v : V) (m : t) : t :=
  match m with
  | [] => [(k, v)]
  | (k', v') :: rest =>
      if String.eqb k k' then (k, v) :: rest else (k', v') :: set k v rest
  end.

Fixpoint delete (k : string) (m : t) : t :=
  match m with
  | [] => []
  | (k', v') :: rest =>
      if String.eqb k k' then rest else (k', v') :: delete k rest
  end.

Definition keys (m : t) : list string := map fst m.

(** The invariant of the container: no key is held twice. *)
Definition wf (m : t) : Prop := NoDup (keys m).

(** [m.forEach((v, k) => f v k)] where [f] acts on a state [S]. *)
Definition forEach {S : Type} (f : V -> string -> S -> S) (m : t) (s : S) : S :=
  fold_left (fun acc kv => f (snd kv) (fst kv) acc) m s.

End Ops.

Arguments t : clear implicits.

End JsMap.

(* ===================================================================== *)
(** * FileDiagnostics *)
(* ===================================================================== *)

(** The four members of [DiagnosticKind] the provider uses. *)
Inductive DiagnosticKind : Type :=
| ElmMake
| ElmAnalyse
| TypeInference
| ElmLS.

(** Modelled from the spec: the class [FileDiagnostics] of
    [fileDiagnostics.ts], imported by the provider but not among the sources.
    It holds, per file URI, one ordered diagnostic list per kind; a kind that
    was never updated holds the empty list. *)
Record FileDiagnostics : Type := mkFileDiagnostics {
  fd_uri : string;
  fd_elmMake : list Diagnostic;
  fd_elmAnalyse : list Diagnostic;
  fd_typeInference : list Diagnostic;
  fd_elmLS : list Diagnostic
}.

Module FileDiagnosticsOps.

(** [new FileDiagnostics(uri)] *)
Definition new (uri : string) : FileDiagnostics :=
  mkFileDiagnostics uri [] [] [] [].

Definition getForKind (kind : DiagnosticKind) (fd : FileDiagnostics)
  : list Diagnostic :=
  match kind with
  | ElmMake => fd_elmMake fd
  | ElmAnalyse => fd_elmAnalyse fd
  | TypeInference => fd_typeInference fd
  | ElmLS => fd_elmLS fd
  end.

Definition setForKind (kind : DiagnosticKind) (ds : list Diagnostic)
  (fd : FileDiagnostics) : FileDiagnostics :=
  match kind with
  | ElmMake =>
      mkFileDiagnostics (fd_uri fd) ds (fd_elmAnalyse fd)
        (fd_typeInference fd) (fd_elmLS fd)
  | ElmAnalyse =>
      mkFileDiagnostics (fd_uri fd) (fd_elmMake fd) ds
        (fd_typeInference fd) (fd_elmLS fd)
  | TypeInference =>
      mkFileDiagnostics (fd_uri fd) (fd_elmMake fd) (fd_elmAnalyse fd)
        ds (fd_elmLS fd)
  | ElmLS =>
      mkFileDiagnostics (fd_uri fd) (fd_elmMake fd) (fd_elmAnalyse fd)
        (fd_typeInference fd) ds
  end.

(** The merged, flattened output of the record. *)
Definition get (fd : FileDiagnostics) : list Diagnostic :=
  fd_elmMake fd ++ fd_elmAnalyse fd ++ fd_typeInference fd ++ fd_elmLS fd.

(** Removes the first diagnostic equal to [d], if there is one. *)
Fixpoint removeFirst (d : Diagnostic) (l : list Diagnostic)
  : option (list Diagnostic) :=
  match l with
  | [] => None
  | x :: rest =>
      if diagnosticsEquals d x then Some rest
      else match removeFirst d rest with
           | Some rest' => Some (x :: rest')
           | None => None
           end
  end.

(** Equality of two lists as multisets, under [diagnosticsEquals]. *)
Fixpoint sameMultiset (l1 l2 : list Diagnostic) : bool :=
  match l1 with
  | [] => match l2 with [] => true | _ :: _ => false end
  | d :: rest =>
      match removeFirst d l2 with
      | Some l2' => sameMultiset rest l2'
      | None => false
      end
  end.

(** [update(kind, list)] replaces the slot and tells whether the merged
    flattened output changed as a multiset. *)
Definition update (kind : DiagnosticKind) (ds : list Diagnostic)
  (fd : FileDiagnostics) : FileDiagnostics * bool :=
  let fd' := setForKind kind ds fd in
  (fd', negb (sameMultiset (get fd) (get fd'))).

End FileDiagnosticsOps.

(* ===================================================================== *)
(** * The aggregator: [DiagnosticsProvider] *)
(* ===================================================================== *)

(** [ElmAnalyseTrigger] of the client settings. *)
Inductive ElmAnalyseTrigger : Type :=
| change
| save
| never.

Definition triggerEquals (a b : ElmAnalyseTrigger) : bool :=
  match a, b with
  | change, change | save, save | never, never => true
  | _, _ => false
  end.

Record IClientSettings : Type := mkClientSettings {
  disableElmLSDiagnostics : bool;
  elmAnalyseTrigger : ElmAnalyseTrigger
}.

(** What [connection.sendDiagnostics] is called with. *)
Record PublishDiagnosticsParams : Type := mkPublish {
  pub_uri : string;
  pub_diagnostics : list Diagnostic
}.

(** A timeout armed by a debounced function: [owner] is the debounced
    function that armed it, [deadline] the clock value (in milliseconds) at
    which it fires, [arg] the argument the wrapped function is called with. *)
Record Timer : Type := mkTimer {
  owner : nat;
  deadline : nat;
  arg : string
}.

(** Errors a handler can meet: the workspace matcher's
    [NoWorkspaceContainsError], and any other error. *)
Inductive JsError : Type :=
| NoWorkspaceContainsError (msg : string)
| OtherError (name msg : string).

Definition errorMessage (e : JsError) : string :=
  match e with
  | NoWorkspaceContainsError msg => msg
  | OtherError _ msg => msg
  end.

Record TextDocument : Type := mkTextDocument {
  doc_uri : string;
  doc_text : string
}.

Inductive TextDocumentEvent : Type :=
| EvOpen
| EvSave
| EvChange.

Section Provider.

(** The syntax tree of a file is opaque to the aggregator. *)
Variable Tree : Type.

Record ITreeContainer : Type := mkTreeContainer {
  tc_uri : string;
  writeable : bool;
  tree : Tree
}.

(** A workspace, as far as the provider looks into it:
    [workspace.getForest().treeMap]. *)
Record IElmWorkspace : Type := mkWorkspace {
  rootPath : string;
  treeMap : JsMap.t ITreeContainer
}.

(** The sources of diagnostics are collaborators of the provider. *)
Variable elmDiagnostics_createDiagnostics :
  Tree -> string -> IElmWorkspace -> list Diagnostic.
Variable typeInferenceDiagnostics_createDiagnostics :
  ITreeContainer -> IElmWorkspace -> list Diagnostic.
(** [elmWorkspaceMatcher.getElmWorkspaceFor]: the owning workspace, or the
    error it throws. *)
Variable getElmWorkspaceFor : string -> JsError + IElmWorkspace.

(** The provider's fields together with the effects it has on its
    collaborators: the clock and the pending timeouts of the JavaScript event
    loop, and the calls made so far on the connection and on elm-analyse. *)
Record DiagnosticsProvider : Type := mkProvider {
  currentDiagnostics : JsMap.t FileDiagnostics;
  clientSettings : IClientSettings;
  (** [this.elmAnalyseDiagnostics] is not [null] *)
  elmAnalyseDiagnostics : bool;
  workspaces : list IElmWorkspace;
  (** the [elmAnalyseTrigger] the constructor captured for its listeners *)
  listenerTrigger : ElmAnalyseTrigger;
  clock : nat;
  (** number of debounced functions created so far *)
  debouncedCount : nat;
  timers : list Timer;
  (** calls of [connection.sendDiagnostics], oldest first *)
  sentDiagnostics : list PublishDiagnosticsParams;
  (** calls of [connection.console.info], oldest first *)
  consoleInfo : list string;
  (** calls of [elmAnalyseDiagnostics.updateFile], oldest first *)
  updateFileCalls : list (string * string)
}.

Definition with_currentDiagnostics (m : JsMap.t FileDiagnostics)
  (p : DiagnosticsProvider) : DiagnosticsProvider :=
  mkProvider m (clientSettings p) (elmAnalyseDiagnostics p) (workspaces p)
    (listenerTrigger p) (clock p) (debouncedCount p) (timers p)
    (sentDiagnostics p) (consoleInfo p) (updateFileCalls p).

Definition with_clientSettings (s : IClientSettings)
  (p : DiagnosticsProvider) : DiagnosticsProvider :=
  mkProvider (currentDiagnostics p) s (elmAnalyseDiagnostics p) (workspaces p)
    (listenerTrigger p) (clock p) (debouncedCount p) (timers p)
    (sentDiagnostics p) (consoleInfo p) (updateFileCalls p).

Definition with_clock (c : nat)
  (p : DiagnosticsProvider) : DiagnosticsProvider :=
  mkProvider (currentDiagnostics p) (clientSettings p)
    (elmAnalyseDiagnostics p) (workspaces p)
    (listenerTrigger p) c (debouncedCount p) (timers p)
    (sentDiagnostics p) (consoleInfo p) (updateFileCalls p).

Definition with_debouncedCount (n : nat)
  (p : DiagnosticsProvider) : DiagnosticsProvider :=
  mkProvider (currentDiagnostics p) (clientSettings p)
    (elmAnalyseDiagnostics p) (workspaces p)
    (listenerTrigger p) (clock p) n (timers p)
    (sentDiagnostics p) (consoleInfo p) (updateFileCalls p).

Definition with_timers (ts : list Timer)
  (p : DiagnosticsProvider) : DiagnosticsProvider :=
  mkProvider (currentDiagnostics p) (clientSettings p)
    (elmAnalyseDiagnostics p) (workspaces p)
    (listenerTrigger p) (clock p) (debouncedCount p) ts
    (sentDiagnostics p) (consoleInfo p) (updateFileCalls p).

Definition with_sentDiagnostics (s : list PublishDiagnosticsParams)
  (p : DiagnosticsProvider) : DiagnosticsProvider :=
  mkProvider (currentDiagnostics p) (clientSettings p)
    (elmAnalyseDiagnostics p) (workspaces p)
    (listenerTrigger p) (clock p) (debouncedCount p) (timers p)
    s (consoleInfo p) (updateFileCalls p).

Definition with_consoleInfo (c : list string)
  (p : DiagnosticsProvider) : DiagnosticsProvider :=
  mkProvider (currentDiagnostics p) (clientSettings p)
    (elmAnalyseDiagnostics p) (workspaces p)
    (listenerTrigger p) (clock p) (debouncedCount p) (timers p)
    (sentDiagnostics p) c (updateFileCalls p).

Definition with_updateFileCalls (c : list (string * string))
  (p : DiagnosticsProvider) : DiagnosticsProvider :=
  mkProvider (currentDiagnostics p) (clientSettings p)
    (elmAnalyseDiagnostics p) (workspaces p)
    (listenerTrigger p) (clock p) (debouncedCount p) (timers p)
    (sentDiagnostics p) (consoleInfo p) c.

(** ** The connection *)

Definition connection_sendDiagnostics (params : PublishDiagnosticsParams)
  (p : DiagnosticsProvider) : DiagnosticsProvider :=
  with_sentDiagnostics (sentDiagnostics p ++ [params]) p.

Definition console_info (msg : string)
  (p : DiagnosticsProvider) : DiagnosticsProvider :=
  with_consoleInfo (consoleInfo p ++ [msg]) p.

(** ** Debouncing (the [ts-debounce] package)

    [debounce(f, wait)] returns a new function that owns one timeout slot.
    Calling it clears the timeout in its own slot, if any, and arms a new one
    that calls [f] with the latest arguments [wait] milliseconds later.  Two
    functions returned by two calls of [debounce] share nothing. *)

Definition debounce (p : DiagnosticsProvider) : nat * DiagnosticsProvider :=
  (debouncedCount p, with_debouncedCount (S (debouncedCount p)) p).

Definition callDebounced (id wait : nat) (a : string)
  (p : DiagnosticsProvider) : DiagnosticsProvider :=
  with_timers
    (filter (fun t => negb (Nat.eqb (owner t) id)) (timers p)
       ++ [mkTimer id (clock p + wait) a])
    p.

(** The closure [sendDiagnostics] of [updateDiagnostics]: it reads the map
    when it runs. *)
Definition sendDiagnostics (uri : string)
  (p : DiagnosticsProvider) : DiagnosticsProvider :=
  let diagnostics :=
    match JsMap.get uri (currentDiagnostics p) with
    | Some fileDiagnostics => FileDiagnosticsOps.get fileDiagnostics
    | None => []
    end in
  connection_sendDiagnostics (mkPublish uri diagnostics) p.

Definition isDue (now : nat) (t : Timer) : bool := Nat.leb (deadline t) now.

(** [ms] milliseconds pass with no other event: the timeouts that are due
    fire, oldest first (every timeout is armed with the same delay, so the
    order of arming is the order of the deadlines). *)
Definition elapse (ms : nat) (p : DiagnosticsProvider) : DiagnosticsProvider :=
  let now := clock p + ms in
  let due := filter (isDue now) (timers p) in
  let pending := filter (fun t => negb (isDue now t)) (timers p) in
  fold_left (fun acc t => sendDiagnostics (arg t) acc) due
    (with_timers pending (with_clock now p)).

(** ** [updateDiagnostics] *)

Definition updateDiagnostics (uri : string) (kind : DiagnosticKind)
  (diagnostics : list Diagnostic) (p : DiagnosticsProvider)
  : DiagnosticsProvider :=
  let '(current, didUpdate) :=
    match JsMap.get uri (currentDiagnostics p) with
    | Some fileDiagnostics =>
        let '(fileDiagnostics', changed) :=
          FileDiagnosticsOps.update kind diagnostics fileDiagnostics in
        (JsMap.set uri fileDiagnostics' (currentDiagnostics p), changed)
    | None =>
        if Nat.ltb 0 (length diagnostics) then
          let '(fileDiagnostics', _) :=
            FileDiagnosticsOps.update kind diagnostics
              (FileDiagnosticsOps.new uri) in
          (JsMap.set uri fileDiagnostics' (currentDiagnostics p), true)
        else (currentDiagnostics p, false)
    end in
  let p1 := with_currentDiagnostics current p in
  if didUpdate then
    let '(sendDiagnosticsDebounced, p2) := debounce p1 in
    callDebounced sendDiagnosticsDebounced 50 uri p2
  else p1.

(** ** [deleteDiagnostics] *)

Definition deleteDiagnostics (uri : string) (p : DiagnosticsProvider)
  : DiagnosticsProvider :=
  connection_sendDiagnostics (mkPublish uri [])
    (with_currentDiagnostics (JsMap.delete uri (currentDiagnostics p)) p).

(** ** [resetDiagnostics]

    The method changes the map it is given; here it returns the changed
    map. *)
Definition resetDiagnostics (diagnosticList : JsMap.t (list Diagnostic))
  (diagnosticKind : DiagnosticKind) (p : DiagnosticsProvider)
  : JsMap.t (list Diagnostic) :=
  JsMap.forEach
    (fun fileDiagnostics diagnosticsUri acc =>
       if negb (JsMap.has diagnosticsUri acc)
          && Nat.ltb 0 (length (FileDiagnosticsOps.getForKind diagnosticKind
                                  fileDiagnostics))
       then JsMap.set diagnosticsUri [] acc
       else acc)
    (currentDiagnostics p) diagnosticList.

(** ** [newElmAnalyseDiagnostics] *)

Definition newElmAnalyseDiagnostics (diagnostics : JsMap.t (list Diagnostic))
  (p : DiagnosticsProvider) : DiagnosticsProvider :=
  let diagnostics' := resetDiagnostics diagnostics ElmAnalyse p in
  JsMap.forEach
    (fun ds uri acc => updateDiagnostics uri ElmAnalyse ds acc)
    diagnostics' p.

(** ** The [onDidChangeWatchedFiles] listener *)

Inductive FileChangeType : Type :=
| Created
| Changed
| Deleted.

Record FileEvent : Type := mkFileEvent {
  fe_uri : string;
  fe_type : FileChangeType
}.

Definition isDeleted (a : FileEvent) : bool :=
  match fe_type a with
  | Deleted => true
  | _ => false
  end.

Definition onDidChangeWatchedFiles (changes : list FileEvent)
  (p : DiagnosticsProvider) : DiagnosticsProvider :=
  let newDeleteEvents := map fe_uri (filter isDeleted changes) in
  fold_left (fun acc uri => deleteDiagnostics uri acc) newDeleteEvents p.

(** ** The [onDidChangeConfiguration] listener *)

(** The body of [workspace.getForest().treeMap.forEach] in the listener. *)
Definition relintTreeContainer (workspace : IElmWorkspace)
  (treeContainer : ITreeContainer) (p : DiagnosticsProvider)
  : DiagnosticsProvider :=
  if writeable treeContainer then
    updateDiagnostics (tc_uri treeContainer) ElmLS
      (elmDiagnostics_createDiagnostics (tree treeContainer)
         (tc_uri treeContainer) workspace)
      p
  else p.

Definition relintWorkspace (p : DiagnosticsProvider)
  (workspace : IElmWorkspace) : DiagnosticsProvider :=
  JsMap.forEach (fun treeContainer _ acc =>
                   relintTreeContainer workspace treeContainer acc)
    (treeMap workspace) p.

Definition onDidChangeConfiguration (settings : IClientSettings)
  (p : DiagnosticsProvider) : DiagnosticsProvider :=
  let p1 := with_clientSettings settings p in
  if disableElmLSDiagnostics (clientSettings p1) then
    JsMap.forEach (fun _ uri acc => updateDiagnostics uri ElmLS [] acc)
      (currentDiagnostics p1) p1
  else
    fold_left relintWorkspace (workspaces p1) p1.

(** The updates the listener makes when the rule engine is enabled, in the
    order it makes them: one per writeable tree container of every
    workspace, each with the file's URI and its freshly computed list. *)
Definition lintJobsOf (workspace : IElmWorkspace)
  : list (string * list Diagnostic) :=
  flat_map (fun kv =>
              if writeable (snd kv) then
                [(tc_uri (snd kv),
                  elmDiagnostics_createDiagnostics (tree (snd kv))
                    (tc_uri (snd kv)) workspace)]
              else [])
    (treeMap workspace).

Definition lintJobs (elmWorkspaces : list IElmWorkspace)
  : list (string * list Diagnostic) :=
  flat_map lintJobsOf elmWorkspaces.

(** ** The [onTreeChange] listener

    The constructor registers this listener once per workspace; this is one
    call of it.  A listener either returns or throws; the provider it leaves
    behind is kept in both cases. *)
Inductive Outcome : Type :=
| Returned (p : DiagnosticsProvider)
| Thrown (e : JsError) (p : DiagnosticsProvider).

Definition onTreeChange (treeContainer : ITreeContainer)
  (p : DiagnosticsProvider) : Outcome :=
  match getElmWorkspaceFor (tc_uri treeContainer) with
  | inl error =>
      match error with
      | NoWorkspaceContainsError _ =>
          Returned (console_info (errorMessage error) p)
      | OtherError _ _ => Thrown error p
      end
  | inr workspace =>
      let p1 :=
        updateDiagnostics (tc_uri treeContainer) TypeInference
          (typeInferenceDiagnostics_createDiagnostics treeContainer workspace)
          p in
      if negb (disableElmLSDiagnostics (clientSettings p1)) then
        Returned
          (updateDiagnostics (tc_uri treeContainer) ElmLS
             (elmDiagnostics_createDiagnostics (tree treeContainer)
                (tc_uri treeContainer) workspace)
             p1)
      else Returned p1
  end.

(** ** [getDiagnostics]

    The method awaits the build; [elmMakeResult] is what
    [elmMakeDiagnostics.createDiagnostics(uri)] resolved to, and the provider
    is the one the method resumes on.  The map is keyed by [uri.toString()]
    of the parsed document URI, taken here to be the document's URI. *)

(** [this.currentDiagnostics.get(uri)?.getForKind(kind) ?? []] *)
Definition storedForKind (kind : DiagnosticKind) (uri : string)
  (p : DiagnosticsProvider) : list Diagnostic :=
  match JsMap.get uri (currentDiagnostics p) with
  | Some fileDiagnostics => FileDiagnosticsOps.getForKind kind fileDiagnostics
  | None => []
  end.

Definition elmAnalyse_updateFile (uri text : string)
  (p : DiagnosticsProvider) : DiagnosticsProvider :=
  with_updateFileCalls (updateFileCalls p ++ [(uri, text)]) p.

(** An array is truthy whatever it holds. *)
Definition truthy (l : list Diagnostic) : bool := true.

Definition getDiagnostics (document : TextDocument) (isSaveOrOpen : bool)
  (elmAnalyseTrigger : ElmAnalyseTrigger)
  (elmMakeResult : JsMap.t (list Diagnostic))
  (p : DiagnosticsProvider) : DiagnosticsProvider :=
  let p0 :=
    console_info
      ("Diagnostics were requested due to a file "
         ++ (if isSaveOrOpen then "open or save" else "change"))
      p in
  let uri := doc_uri document in
  let text := doc_text document in
  let p1 :=
    if isSaveOrOpen then
      let elmMakeDiagnostics := resetDiagnostics elmMakeResult ElmMake p0 in
      JsMap.forEach
        (fun diagnostics diagnosticsUri acc =>
           updateDiagnostics diagnosticsUri ElmMake diagnostics acc)
        elmMakeDiagnostics p0
    else p0 in
  let elmMakeDiagnosticsForCurrentFile := storedForKind ElmMake uri p1 in
  if elmAnalyseDiagnostics p1
     && negb (triggerEquals elmAnalyseTrigger never)
     && (negb (truthy elmMakeDiagnosticsForCurrentFile)
         || (truthy elmMakeDiagnosticsForCurrentFile
             && Nat.eqb (length elmMakeDiagnosticsForCurrentFile) 0))
  then elmAnalyse_updateFile uri text p1
  else p1.

(** The listeners the constructor registers on the document events: [open]
    and [save] always, [change] only when the trigger is ["change"]. *)
Definition onTextDocumentEvent (ev : TextDocumentEvent)
  (document : TextDocument) (elmMakeResult : JsMap.t (list Diagnostic))
  (p : DiagnosticsProvider) : DiagnosticsProvider :=
  match ev with
  | EvOpen | EvSave =>
      getDiagnostics document true (listenerTrigger p) elmMakeResult p
  | EvChange =>
      if triggerEquals (listenerTrigger p) change then
        getDiagnostics document false (listenerTrigger p) elmMakeResult p
      else p
  end.

(** ** The constructor *)

Definition initTreeContainer (workspace : IElmWorkspace)
  (treeContainer : ITreeContainer) (p : DiagnosticsProvider)
  : DiagnosticsProvider :=
  if writeable treeContainer then
    let treeDiagnostics :=
      typeInferenceDiagnostics_createDiagnostics treeContainer workspace in
    let p1 :=
      updateDiagnostics (tc_uri treeContainer) TypeInference treeDiagnostics
        p in
    if negb (disableElmLSDiagnostics (clientSettings p1)) then
      updateDiagnostics (tc_uri treeContainer) ElmLS
        (elmDiagnostics_createDiagnostics (tree treeContainer)
           (tc_uri treeContainer) workspace)
        p1
    else p1
  else p.

Definition initWorkspace (p : DiagnosticsProvider)
  (workspace : IElmWorkspace) : DiagnosticsProvider :=
  JsMap.forEach (fun treeContainer _ acc =>
                   initTreeContainer workspace treeContainer acc)
    (treeMap workspace) p.

(** [resolved] tells whether the container yields an elm-analyse source. *)
Definition constructor (settings : IClientSettings) (resolved : bool)
  (elmWorkspaces : list IElmWorkspace) : DiagnosticsProvider :=
  let p0 :=
    mkProvider JsMap.empty settings
      (negb (triggerEquals (elmAnalyseTrigger settings) never) && resolved)
      elmWorkspaces (elmAnalyseTrigger settings) 0 0 [] [] [] [] in
  fold_left initWorkspace elmWorkspaces p0.

(** ** The provider as a state machine

    What can happen to a provider once it is constructed: a document event
    (with what the build resolved to), a notification of watched files, a
    configuration change, a tree change, a result set of elm-analyse (whose
    listener is registered only when the source exists), and time passing. *)
Inductive Event : Type :=
| DocumentEvent (ev : TextDocumentEvent) (document : TextDocument)
    (elmMakeResult : JsMap.t (list Diagnostic))
| WatchedFilesChanged (changes : list FileEvent)
| ConfigurationChanged (settings : IClientSettings)
| TreeChanged (treeContainer : ITreeContainer)
| ElmAnalyseResults (diagnostics : JsMap.t (list Diagnostic))
| TimePassed (ms : nat).

Definition afterOutcome (o : Outcome) : DiagnosticsProvider :=
  match o with
  | Returned p => p
  | Thrown _ p => p
  end.

Definition handle (p : DiagnosticsProvider) (e : Event) : DiagnosticsProvider :=
  match e with
  | DocumentEvent ev document elmMakeResult =>
      onTextDocumentEvent ev document elmMakeResult p
  | WatchedFilesChanged changes => onDidChangeWatchedFiles changes p
  | ConfigurationChanged settings => onDidChangeConfiguration settings p
  | TreeChanged treeContainer => afterOutcome (onTreeChange treeContainer p)
  | ElmAnalyseResults diagnostics =>
      if elmAnalyseDiagnostics p then newElmAnalyseDiagnostics diagnostics p
      else p
  | TimePassed ms => elapse ms p
  end.

Definition run (events : list Event) (p : DiagnosticsProvider)
  : DiagnosticsProvider :=
  fold_left handle events p.

(** What every provider met in a run satisfies: the map holds no key twice,
    and every pending timer belongs to a debounced function that exists. *)
Definition invariant (p : DiagnosticsProvider) : Prop :=
  JsMap.wf (currentDiagnostics p)
  /\ Forall (fun t => owner t < debouncedCount p) (timers p).

End Provider.

(* ===================================================================== *)
(** * Notions used to state what the provider does *)
(* ===================================================================== *)

Section ProviderNotions.
Context {Tree : Type}.

(** The list [sendDiagnostics] sends for [uri] when it runs on [p]: the
    merged list of the file's record, or the empty list when the file is not
    tracked. *)
Definition mergedFor (uri : string) (p : DiagnosticsProvider Tree)
  : list Diagnostic :=
  match JsMap.get uri (currentDiagnostics p) with
  | Some fileDiagnostics => FileDiagnosticsOps.get fileDiagnostics
  | None => []
  end.

(** What the timer [t] makes the connection send when it fires on [p]. *)
Definition emission (p : DiagnosticsProvider Tree) (t : Timer)
  : PublishDiagnosticsParams :=
  mkPublish (arg t) (mergedFor (arg t) p).

(** No pending timer is due later than the debounce delay from now. *)
Definition timely (p : DiagnosticsProvider Tree) : Prop :=
  Forall (fun t => deadline t <= clock p + 50) (timers p).

(** The URI is the one of a writeable tree container of one of the
    workspaces. *)
Definition isWriteableTree (elmWorkspaces : list (IElmWorkspace Tree))
  (uri : string) : Prop :=
  exists ws k tc,
    In ws elmWorkspaces /\ In (k, tc) (treeMap ws)
    /\ writeable tc = true /\ tc_uri tc = uri.

(** [q] has the listeners, the elm-analyse source and the workspaces of
    [p], and elm-analyse was asked nothing between them. *)
Definition untouched (p q : DiagnosticsProvider Tree) : Prop :=
  listenerTrigger q = listenerTrigger p
  /\ elmAnalyseDiagnostics q = elmAnalyseDiagnostics p
  /\ workspaces q = workspaces p
  /\ updateFileCalls q = updateFileCalls p.

(** What holds of a provider while the constructor fills it: nothing was
    sent or logged, the clock has not moved, only writeable trees of the
    workspaces are tracked, no file holds an ElmMake or an ElmAnalyse list,
    and none holds an ElmLS list when the settings disable the rule
    engine. *)
Definition underConstruction (elmWorkspaces : list (IElmWorkspace Tree))
  (settings : IClientSettings) (p : DiagnosticsProvider Tree) : Prop :=
  sentDiagnostics p = []
  /\ consoleInfo p = []
  /\ clock p = 0
  /\ clientSettings p = settings
  /\ (forall u, JsMap.has u (currentDiagnostics p) = true ->
        isWriteableTree elmWorkspaces u)
  /\ (forall u, storedForKind ElmMake u p = []
                /\ storedForKind ElmAnalyse u p = [])
  /\ (disableElmLSDiagnostics settings = true ->
      forall u, storedForKind ElmLS u p = []).

End ProviderNotions.

(* ===================================================================== *)
(** * The rule engine, as far as the test-suite pins it down

    The evaluators live in [elmDiagnostics.ts], which the test-suite imports
    and which is not among the sources; the parser is an external
    collaborator, so a module is given by its syntax tree. *)
(* ===================================================================== *)

Module Elm.

(** ** Syntax *)

Scheme All for list.
Scheme All for prod.

Inductive Pattern : Type :=
| PAnything
| PLower (name : string)
| PLiteral (text : string)
| PUnion (ctor : string) (args : list Pattern)
| PTuple (items : list Pattern)
| PRecord (fields : list string).

Record CaseBranch (E : Type) : Type := mkBranch {
  cb_pattern : Pattern;
  cb_expr : E;
  cb_range : Range
}.

Scheme All for CaseBranch.

Inductive Expr : Type :=
| EValue (name : string)
| ECtor (name : string)
| ELiteral (text : string)
| EParen (e : Expr)
| EApp (target : Expr) (args : list Expr)
| EBinOp (l : Expr) (op : string) (r : Expr)
| ECase (scrutinee : Expr) (branches : list (CaseBranch Expr)).

Inductive TypeExpr : Type :=
| TVar (name : string)
| TRef (name : string) (args : list TypeExpr)
| TFun (a b : TypeExpr)
| TRecord (fields : list (string * TypeExpr)).

Record ValueDeclaration : Type := mkValue {
  v_name : string;
  v_nameRange : Range;
  v_annotation : option TypeExpr;
  v_params : list Pattern;
  v_body : Expr
}.

Record UnionVariant : Type := mkVariant {
  uv_name : string;
  uv_range : Range;
  uv_args : list TypeExpr
}.

Record TypeDeclaration : Type := mkType {
  t_name : string;
  t_variants : list UnionVariant
}.

Record TypeAliasDeclaration : Type := mkAlias {
  a_name : string;
  a_range : Range;
  a_type : TypeExpr
}.

Record PortAnnotation : Type := mkPort {
  port_name : string;
  port_type : TypeExpr
}.

Inductive Declaration : Type :=
| DValue (v : ValueDeclaration)
| DType (t : TypeDeclaration)
| DAlias (a : TypeAliasDeclaration)
| DPort (p : PortAnnotation).

(** An item of an exposing list: [foo], [Some] or [Some(..)]. *)
Inductive ExposedItem : Type :=
| ExposedValue (name : string)
| ExposedType (name : string) (constructors : bool).

Inductive Exposing : Type :=
| ExposeAll
| ExposeList (items : list ExposedItem).

Record Module_ : Type := mkModule {
  isPortModule : bool;
  exposing : Exposing;
  declarations : list Declaration
}.

(** ** Names that occur in a piece of syntax *)

Definition mem (n : string) (l : list string) : bool :=
  existsb (String.eqb n) l.

Fixpoint patternCtors (p : Pattern) : list string :=
  match p with
  | PUnion c args => c :: flat_map patternCtors args
  | PTuple items => flat_map patternCtors items
  | _ => []
  end.

(** Lower-case value references of an expression. *)
Fixpoint exprValues (e : Expr) : list string :=
  match e with
  | EValue n => [n]
  | ECtor _ | ELiteral _ => []
  | EParen e1 => exprValues e1
  | EApp f args => exprValues f ++ flat_map exprValues args
  | EBinOp l _ r => exprValues l ++ exprValues r
  | ECase s branches =>
      exprValues s ++ flat_map (fun b => exprValues (cb_expr b)) branches
  end.

(** Constructors referenced by name in an expression. *)
Fixpoint exprCtors (e : Expr) : list string :=
  match e with
  | ECtor n => [n]
  | EValue _ | ELiteral _ => []
  | EParen e1 => exprCtors e1
  | EApp f args => exprCtors f ++ flat_map exprCtors args
  | EBinOp l _ r => exprCtors l ++ exprCtors r
  | ECase s branches =>
      exprCtors s ++ flat_map (fun b => exprCtors (cb_expr b)) branches
  end.

(** Constructors matched by the patterns of the case branches of an
    expression. *)
Fixpoint exprPatternCtors (e : Expr) : list string :=
  match e with
  | EValue _ | ECtor _ | ELiteral _ => []
  | EParen e1 => exprPatternCtors e1
  | EApp f args => exprPatternCtors f ++ flat_map exprPatternCtors args
  | EBinOp l _ r => exprPatternCtors l ++ exprPatternCtors r
  | ECase s branches =>
      exprPatternCtors s
      ++ flat_map (fun b => patternCtors (cb_pattern b)
                            ++ exprPatternCtors (cb_expr b)) branches
  end.

Fixpoint typeRefs (t : TypeExpr) : list string :=
  match t with
  | TVar _ => []
  | TRef n args => n :: flat_map typeRefs args
  | TFun a b => typeRefs a ++ typeRefs b
  | TRecord fields => flat_map (fun f => typeRefs (snd f)) fields
  end.

Definition annotationRefs (a : option TypeExpr) : list string :=
  match a with
  | Some t => typeRefs t
  | None => []
  end.

(** Every name that occurs in the defining span of a value declaration: as an
    identifier, as a type reference or as a pattern constructor. *)
Definition valueRefs (v : ValueDeclaration) : list string :=
  annotationRefs (v_annotation v)
  ++ flat_map patternCtors (v_params v)
  ++ exprValues (v_body v)
  ++ exprCtors (v_body v)
  ++ exprPatternCtors (v_body v).

Definition variantRefs (uv : UnionVariant) : list string :=
  flat_map typeRefs (uv_args uv).

(** ** The usage resolver

    Modelled from the spec: the resolver of [elmDiagnostics.ts] (not among the
    sources).  Nodes are declaration identities, given by name, each with the
    names that occur in its defining span; there is an edge from D to E when
    E's name occurs in D's span and E is not D; the roots are the names of
    the exposing list, or every top-level declaration when the module exposes
    everything, and for a port module the type names of the ports'
    signatures. *)

Definition declNodes (d : Declaration) : list (string * list string) :=
  match d with
  | DValue v => [(v_name v, valueRefs v)]
  | DType t =>
      (t_name t, flat_map variantRefs (t_variants t))
        :: map (fun uv => (uv_name uv, variantRefs uv)) (t_variants t)
  | DAlias a => [(a_name a, typeRefs (a_type a))]
  | DPort p => [(port_name p, typeRefs (port_type p))]
  end.

Definition graphNodes (m : Module_) : list (string * list string) :=
  flat_map declNodes (declarations m).

Definition declName (d : Declaration) : string :=
  match d with
  | DValue v => v_name v
  | DType t => t_name t
  | DAlias a => a_name a
  | DPort p => port_name p
  end.

Definition exposedName (i : ExposedItem) : string :=
  match i with
  | ExposedValue n => n
  | ExposedType n _ => n
  end.

Definition portRoots (m : Module_) : list string :=
  if isPortModule m then
    flat_map (fun d => match d with
                       | DPort p => typeRefs (port_type p)
                       | _ => []
                       end) (declarations m)
  else [].

Definition roots (m : Module_) : list string :=
  match exposing m with
  | ExposeAll => map declName (declarations m)
  | ExposeList items => map exposedName items
  end ++ portRoots m.

(** The targets of the edges that leave the node named [n]; an edge from a
    node to itself is never created. *)
Definition successors (m : Module_) (n : string) : list string :=
  flat_map (fun nd =>
              if String.eqb (fst nd) n
              then filter (fun e => negb (String.eqb e n)) (snd nd)
              else [])
    (graphNodes m).

Fixpoint addAll (new visited : list string) : list string :=
  match new with
  | [] => visited
  | n :: rest =>
      if mem n visited then addAll rest visited
      else addAll rest (visited ++ [n])
  end.

(** Breadth-first rounds: each round adds the successors of everything
    visited so far. *)
Fixpoint closure (fuel : nat) (m : Module_) (visited : list string)
  : list string :=
  match fuel with
  | 0 => visited
  | S k => closure k m (addAll (flat_map (successors m) visited) visited)
  end.

(** A path without repetition has at most as many edges as there are nodes. *)
Definition reachable (m : Module_) : list string :=
  closure (length (graphNodes m)) m (roots m).

(** Reachability as a relation, to compare [reachable] with: a root is
    reached, and so is the target of an edge that leaves a reached node. *)
Inductive reaches (m : Module_) : string -> Prop :=
| reaches_root (r : string) : In r (roots m) -> reaches m r
| reaches_edge (n e : string) :
    reaches m n -> In e (successors m n) -> reaches m e.

(** [x] ends a path of edges whose earlier nodes are [before], latest
    first, and which starts at a root. *)
Fixpoint isPath (m : Module_) (x : string) (before : list string) : Prop :=
  match before with
  | [] => In x (roots m)
  | y :: rest => In x (successors m y) /\ isPath m y rest
  end.

(** ** [unused_top_level] *)

Definition unusedTopLevelDiagnostic (v : ValueDeclaration) : Diagnostic :=
  mkDiagnostic "unused_top_level"
    ("Unused top level definition `" ++ v_name v ++ "`")
    "Elm" Warning (v_nameRange v) [Unnecessary].

Definition getUnusedTopLevelDiagnostics (m : Module_) : list Diagnostic :=
  flat_map (fun d =>
              match d with
              | DValue v =>
                  if mem (v_name v) (reachable m) then []
                  else [unusedTopLevelDiagnostic v]
              | _ => []
              end)
    (declarations m).

(** ** [unused_value_constructor]

    Modelled from the spec: the evaluator of [unused_value_constructor] in
    [elmDiagnostics.ts] (not among the sources).  The spec's table counts a
    constructor as used when it is referenced by name or matched in a
    pattern; the case "unused and not exposed" of the test-suite, which is
    among the sources, expects a constructor that only an argument pattern
    of a function matches to be reported.  The model follows the spec but
    for that: a constructor is used when an expression references it by name
    or the pattern of a case branch matches it, and an argument pattern of a
    function does not count. *)

Definition declExprCtors (d : Declaration) : list string :=
  match d with
  | DValue v => exprCtors (v_body v)
  | _ => []
  end.

(** The constructors referenced by name in the expressions of the module. *)
Definition referencedCtors (m : Module_) : list string :=
  flat_map declExprCtors (declarations m).

Definition declPatternCtors (d : Declaration) : list string :=
  match d with
  | DValue v => flat_map patternCtors (v_params v) ++ exprPatternCtors (v_body v)
  | _ => []
  end.

(** The constructors matched by some pattern of the module. *)
Definition matchedCtors (m : Module_) : list string :=
  flat_map declPatternCtors (declarations m).

Definition declArgumentCtors (d : Declaration) : list string :=
  match d with
  | DValue v => flat_map patternCtors (v_params v)
  | _ => []
  end.

(** The constructors matched by an argument pattern of a function of the
    module. *)
Definition argumentMatchedCtors (m : Module_) : list string :=
  flat_map declArgumentCtors (declarations m).

Definition declCaseCtors (d : Declaration) : list string :=
  match d with
  | DValue v => exprPatternCtors (v_body v)
  | _ => []
  end.

(** The constructors matched by the pattern of a case branch of the
    module. *)
Definition caseMatchedCtors (m : Module_) : list string :=
  flat_map declCaseCtors (declarations m).

Definition exposesConstructors (n : string) (i : ExposedItem) : bool :=
  match i with
  | ExposedType n' true => String.eqb n n'
  | _ => false
  end.

(** The type named [n] is exposed with [(..)]. *)
Definition exposedWithConstructors (m : Module_) (n : string) : bool :=
  match exposing m with
  | ExposeAll => true
  | ExposeList items => existsb (exposesConstructors n) items
  end.

Definition unusedValueConstructorDiagnostic (uv : UnionVariant) : Diagnostic :=
  mkDiagnostic "unused_value_constructor"
    ("Value constructor `" ++ uv_name uv ++ "` is not used.")
    "Elm" Warning (uv_range uv) [Unnecessary].

Definition isUnusedValueConstructor (m : Module_) (t : TypeDeclaration)
  (uv : UnionVariant) : bool :=
  negb (mem (uv_name uv) (referencedCtors m))
  && negb (mem (uv_name uv) (caseMatchedCtors m))
  && negb (exposedWithConstructors m (t_name t)).

Definition typeUnusedValueConstructors (m : Module_) (t : TypeDeclaration)
  : list Diagnostic :=
  map unusedValueConstructorDiagnostic
    (filter (isUnusedValueConstructor m t) (t_variants t)).

Definition getUnusedValueConstructorDiagnostics (m : Module_)
  : list Diagnostic :=
  flat_map (fun d =>
              match d with
              | DType t => typeUnusedValueConstructors m t
              | _ => []
              end)
    (declarations m).

(** The spec's reading of the same rule, for comparison: every pattern
    match counts as a use, the argument patterns of functions included. *)
Definition spec_isUnusedValueConstructor (m : Module_) (t : TypeDeclaration)
  (uv : UnionVariant) : bool :=
  negb (mem (uv_name uv) (referencedCtors m))
  && negb (mem (uv_name uv) (matchedCtors m))
  && negb (exposedWithConstructors m (t_name t)).

(** ** [map_nothing_to_nothing]

    Modelled from the spec: the evaluator of [map_nothing_to_nothing] in
    [elmDiagnostics.ts] (not among the sources).  The spec's rule table does
    not list the code; the trigger is the one the three cases of the
    test-suite pin down: a case branch whose pattern is [Nothing] and whose
    expression is [Nothing], reported with the range of the branch. *)

Definition isNothingPattern (p : Pattern) : bool :=
  match p with
  | PUnion c [] => String.eqb c "Nothing"
  | _ => false
  end.

Definition isNothingExpr (e : Expr) : bool :=
  match e with
  | ECtor c => String.eqb c "Nothing"
  | _ => false
  end.

Definition mapsNothingToNothing (b : CaseBranch Expr) : bool :=
  isNothingPattern (cb_pattern b) && isNothingExpr (cb_expr b).

Definition mapNothingToNothingDiagnostic (r : Range) : Diagnostic :=
  mkDiagnostic "map_nothing_to_nothing"
    "`Nothing` mapped to `Nothing` in case expression. Use Maybe.map or Maybe.andThen instead."
    "Elm" Warning r [].

Fixpoint exprMapNothingToNothing (e : Expr) : list Diagnostic :=
  match e with
  | EValue _ | ECtor _ | ELiteral _ => []
  | EParen e1 => exprMapNothingToNothing e1
  | EApp f args =>
      exprMapNothingToNothing f ++ flat_map exprMapNothingToNothing args
  | EBinOp l _ r => exprMapNothingToNothing l ++ exprMapNothingToNothing r
  | ECase s branches =>
      exprMapNothingToNothing s
      ++ flat_map (fun b =>
                     (if mapsNothingToNothing b
                      then [mapNothingToNothingDiagnostic (cb_range b)]
                      else [])
                     ++ exprMapNothingToNothing (cb_expr b))
           branches
  end.

(** Every expression that occurs in [e], [e] itself included. *)
Fixpoint subexpressions (e : Expr) : list Expr :=
  e :: match e with
       | EValue _ | ECtor _ | ELiteral _ => []
       | EParen e1 => subexpressions e1
       | EApp f args => subexpressions f ++ flat_map subexpressions args
       | EBinOp l _ r => subexpressions l ++ subexpressions r
       | ECase s branches =>
           subexpressions s
           ++ flat_map (fun b => subexpressions (cb_expr b)) branches
       end.

Definition declBodies (d : Declaration) : list Expr :=
  match d with
  | DValue v => [v_body v]
  | _ => []
  end.

(** Every expression that occurs in the module. *)
Definition moduleExpressions (m : Module_) : list Expr :=
  flat_map subexpressions (flat_map declBodies (declarations m)).

Definition getMapNothingToNothingDiagnostics (m : Module_) : list Diagnostic :=
  flat_map exprMapNothingToNothing (flat_map declBodies (declarations m)).

(** ** The engine

    The evaluators run in a fixed order and their outputs are concatenated;
    only the three evaluators above are modelled. *)
Definition createDiagnostics (m : Module_) : list Diagnostic :=
  getUnusedTopLevelDiagnostics m
  ++ getUnusedValueConstructorDiagnostics m
  ++ getMapNothingToNothingDiagnostics m.

(** [testDiagnostics] of the test-suite keeps the diagnostics of one code. *)
Definition diagnosticsWithCode (c : string) (m : Module_) : list Diagnostic :=
  filter (fun d => String.eqb (code d) c) (createDiagnostics m).

End Elm.

(* ===================================================================== *)
(** * The modules of the test-suite

    The sources of [elmDiagnostics.test.ts] that the modelled evaluators are
    run on, as syntax trees.  A source string starts with a line break, so
    the module header is on line 1. *)
(* ===================================================================== *)

Module ElmTests.

Import Elm.

Definition rng (l1 c1 l2 c2 : nat) : Range :=
  mkRange (mkPosition l1 c1) (mkPosition l2 c2).

(** "unused function": [foo = some], [baz = 2], [some = 1], exposing [foo]. *)
Definition unused_function : Module_ :=
  mkModule false (ExposeList [ExposedValue "foo"])
    [ DValue (mkValue "foo" (rng 3 0 3 3) None [] (EValue "some"));
      DValue (mkValue "baz" (rng 5 0 5 3) None [] (ELiteral "2"));
      DValue (mkValue "some" (rng 7 0 7 4) None [] (ELiteral "1")) ].

(** "only used in self": [type Some = Thing], [foo = 1], [bar = bar + foo],
    exposing [foo, Some(..)]. *)
Definition only_used_in_self : Module_ :=
  mkModule false (ExposeList [ExposedValue "foo"; ExposedType "Some" true])
    [ DType (mkType "Some" [mkVariant "Thing" (rng 3 12 3 17) []]);
      DValue (mkValue "foo" (rng 5 0 5 3) None [] (ELiteral "1"));
      DValue (mkValue "bar" (rng 7 0 7 3) None []
                (EBinOp (EValue "bar") "+" (EValue "foo"))) ].

(** "unused but exposed": [type Foo = Bar], exposing [Foo(..)]. *)
Definition unused_but_exposed : Module_ :=
  mkModule false (ExposeList [ExposedType "Foo" true])
    [ DType (mkType "Foo" [mkVariant "Bar" (rng 3 11 3 14) []]) ].

(** "used and not exposed": [type Foo = Bar Int], [foo = Bar 1], exposing
    [foo]. *)
Definition used_and_not_exposed : Module_ :=
  mkModule false (ExposeList [ExposedValue "foo"])
    [ DType (mkType "Foo" [mkVariant "Bar" (rng 3 11 3 18) [TRef "Int" []]]);
      DValue (mkValue "foo" (rng 5 0 5 3) None []
                (EApp (ECtor "Bar") [ELiteral "1"])) ].

(** "unused and not exposed": [type Foo = Bar Int], [foo (Bar i) = i],
    exposing [foo]. *)
Definition unused_and_not_exposed : Module_ :=
  mkModule false (ExposeList [ExposedValue "foo"])
    [ DType (mkType "Foo" [mkVariant "Bar" (rng 3 11 3 18) [TRef "Int" []]]);
      DValue (mkValue "foo" (rng 5 0 5 3) None [PUnion "Bar" [PLower "i"]]
                (EValue "i")) ].

(** "used value constructor": [type Some = Thing], [foo = Thing], exposing
    [foo]. *)
Definition used_value_constructor : Module_ :=
  mkModule false (ExposeList [ExposedValue "foo"])
    [ DType (mkType "Some" [mkVariant "Thing" (rng 3 12 3 17) []]);
      DValue (mkValue "foo" (rng 5 0 5 3) None [] (ECtor "Thing")) ].

(** "unused value constructor not exposed": [type Some = Thing | Other],
    exposing [foo, Some]. *)
Definition unused_value_constructor_not_exposed : Module_ :=
  mkModule false (ExposeList [ExposedValue "foo"; ExposedType "Some" false])
    [ DType (mkType "Some" [mkVariant "Thing" (rng 3 12 3 17) [];
                            mkVariant "Other" (rng 3 20 3 25) []]) ].

(** "exposed value constructor": [type Some = Thing], [foo = 1], exposing
    [foo, Some(..)]. *)
Definition exposed_value_constructor : Module_ :=
  mkModule false (ExposeList [ExposedValue "foo"; ExposedType "Some" true])
    [ DType (mkType "Some" [mkVariant "Thing" (rng 3 12 3 17) []]);
      DValue (mkValue "foo" (rng 5 0 5 3) None [] (ELiteral "1")) ].

(** The first branch of the three "map nothing to nothing" sources,
    [Just a -> ...]. *)
Definition justBranch (body : Expr) (endColumn : nat) : CaseBranch Expr :=
  mkBranch (PUnion "Just" [PLower "a"]) body (rng 4 4 4 endColumn).

Definition justAPlusOne : Expr :=
  EApp (ECtor "Just") [EParen (EBinOp (EValue "a") "+" (ELiteral "1"))].

Definition caseModule (branches : list (CaseBranch Expr)) : Module_ :=
  mkModule false ExposeAll
    [ DValue (mkValue "y" (rng 3 0 3 1) None []
                (ECase (EValue "x") branches)) ].

(** "map nothing to nothing": [Just a -> Just (a + 1)],
    [Nothing -> Nothing]. *)
Definition map_nothing_to_nothing : Module_ :=
  caseModule
    [ justBranch justAPlusOne 26;
      mkBranch (PUnion "Nothing" []) (ECtor "Nothing") (rng 5 4 5 22) ].

(** "map nothing to something": [Just a -> Just (a + 1)], [Nothing -> 0]. *)
Definition map_nothing_to_something : Module_ :=
  caseModule
    [ justBranch justAPlusOne 26;
      mkBranch (PUnion "Nothing" []) (ELiteral "0") (rng 5 4 5 16) ].

(** "map something to nothing": [Just a -> Nothing], [Nothing -> 0]. *)
Definition map_something_to_nothing : Module_ :=
  caseModule
    [ justBranch (ECtor "Nothing") 21;
      mkBranch (PUnion "Nothing" []) (ELiteral "0") (rng 5 4 5 16) ].

(** Not of the test-suite: the module of "unused and not exposed" with the
    match moved from the argument pattern to a case branch,
    [foo x = case x of Bar i -> i]. *)
Definition matched_in_case_branch : Module_ :=
  mkModule false (ExposeList [ExposedValue "foo"])
    [ DType (mkType "Foo" [mkVariant "Bar" (rng 3 11 3 18) [TRef "Int" []]]);
      DValue (mkValue "foo" (rng 5 0 5 3) None [PLower "x"]
                (ECase (EValue "x")
                   [mkBranch (PUnion "Bar" [PLower "i"]) (EValue "i")
                      (rng 7 8 7 18)])) ].

End ElmTests.

(* ===================================================================== *)
(** * Runs of the provider used below *)
(* ===================================================================== *)

Module Runs.

Definition mainUri : string := "file:///ws/src/Main.elm".
Definition depUri : string := "file:///home/.elm/pkg/src/Dep.elm".

Definition d1 : Diagnostic :=
  mkDiagnostic "unused_top_level" "Unused top level definition `baz`" "Elm"
    Warning (mkRange (mkPosition 5 0) (mkPosition 5 3)) [Unnecessary].

Definition d2 : Diagnostic :=
  mkDiagnostic "type_mismatch" "Type mismatch" "Elm"
    Error (mkRange (mkPosition 3 6) (mkPosition 3 10)) [].

Definition lintOn : IClientSettings := mkClientSettings false change.
Definition lintOff : IClientSettings := mkClientSettings true change.

(** A provider with no workspace: nothing is tracked, the clock is at 0. *)
Definition idle : DiagnosticsProvider unit :=
  constructor (fun _ _ _ => []) (fun _ _ => []) lintOn true [].

(** Two updates of one file, 10 ms apart, then 50 ms of quiet. *)
Definition burst_first : DiagnosticsProvider unit :=
  updateDiagnostics mainUri ElmLS [d1] idle.

Definition burst_second : DiagnosticsProvider unit :=
  updateDiagnostics mainUri TypeInference [d2] (elapse 10 burst_first).

Definition burst_done : DiagnosticsProvider unit :=
  elapse 50 burst_second.

(** For comparison: one debounced function, made once, called twice 10 ms
    apart, then 50 ms of quiet. *)
Definition shared_done : DiagnosticsProvider unit :=
  let '(sendDiagnosticsDebounced, p) := debounce idle in
  elapse 50
    (callDebounced sendDiagnosticsDebounced 50 mainUri
       (elapse 10 (callDebounced sendDiagnosticsDebounced 50 mainUri p))).

(** A workspace whose forest holds one file of a dependency, which is not
    writeable; the rule engine has one finding for it. *)
Definition depContainer : ITreeContainer unit :=
  mkTreeContainer depUri false tt.

Definition depWorkspace : IElmWorkspace unit :=
  mkWorkspace "/ws" [(depUri, depContainer)].

Definition lintFinds : unit -> string -> IElmWorkspace unit -> list Diagnostic :=
  fun _ _ _ => [d1].

Definition noTypeErrors : ITreeContainer unit -> IElmWorkspace unit
                          -> list Diagnostic :=
  fun _ _ => [].

Definition inDepWorkspace : string -> JsError + IElmWorkspace unit :=
  fun _ => inr depWorkspace.

Definition inNoWorkspace : string -> JsError + IElmWorkspace unit :=
  fun uri => inl (NoWorkspaceContainsError (uri ++ " is in no workspace")).

Definition depStart : DiagnosticsProvider unit :=
  constructor lintFinds noTypeErrors lintOn true [depWorkspace].

(** The tree of the dependency changes, then the rule engine is switched
    off. *)
Definition depTracked : DiagnosticsProvider unit :=
  match onTreeChange lintFinds noTypeErrors inDepWorkspace depContainer
          depStart with
  | Returned p => p
  | Thrown _ p => p
  end.

Definition depLintOff : DiagnosticsProvider unit :=
  onDidChangeConfiguration lintFinds lintOff depTracked.

End Runs.

(* ===================================================================== *)
(** * Facts about the container *)
(* ===================================================================== *)

Module JsMapFacts.

Import JsMap.

Section Facts.
Context {V : Type}.
Implicit Types (m : JsMap.t V) (k : string) (v : V).

Lemma get_set_eq m k v : get k (set k v m) = Some v.
Proof.
  induction m as [|[k' v'] m IH]; simpl.
  - now rewrite String.eqb_refl.
  - destruct (String.eqb k k') eqn:E; simpl.
    + now rewrite String.eqb_refl.
    + now rewrite E.
Qed.

Lemma get_set_ne m k k' v : k <> k' -> get k' (set k v m) = get k' m.
Proof.
  intros Hne. induction m as [|[k0 v0] m IH]; simpl.
  - destruct (String.eqb_spec k' k); [congruence | reflexivity].
  - destruct (String.eqb_spec k k0) as [->|Hk]; simpl.
    + destruct (String.eqb_spec k' k0); [congruence | reflexivity].
    + now rewrite IH.
Qed.

Lemma get_None_keys m k : get k m = None <-> ~ In k (keys m).
Proof.
  induction m as [|[k' v'] m IH]; simpl.
  - tauto.
  - destruct (String.eqb_spec k k') as [->|Hk].
    + split; [discriminate | tauto].
    + rewrite IH. split; [intros H [E|E]; [congruence | tauto] | tauto].
Qed.

Lemma get_Some_In m k v : get k m = Some v -> In (k, v) m.
Proof.
  induction m as [|[k' v'] m IH]; simpl; [discriminate|].
  destruct (String.eqb_spec k k') as [->|Hk].
  - intros [= ->]. now left.
  - intros H. right. now apply IH.
Qed.

Lemma In_get_Some m k v : wf m -> In (k, v) m -> get k m = Some v.
Proof.
  unfold wf. induction m as [|[k' v'] m IH]; simpl; [tauto|].
  intros Hnd [E|Hin].
  - injection E as -> ->. now rewrite String.eqb_refl.
  - inversion Hnd as [|? ? Hnotin Hnd']; subst.
    destruct (String.eqb_spec k k') as [->|Hk].
    + exfalso. apply Hnotin. change (In (fst (k', v)) (map fst m)).
      now apply in_map.
    + now apply IH.
Qed.

Lemma keys_set_tracked m k v :
  get k m <> None -> keys (set k v m) = keys m.
Proof.
  induction m as [|[k' v'] m IH]; simpl; [congruence|].
  destruct (String.eqb_spec k k') as [->|Hk]; simpl.
  - reflexivity.
  - intros H. now rewrite IH.
Qed.

Lemma keys_set_untracked m k v :
  get k m = None -> keys (set k v m) = keys m ++ [k].
Proof.
  induction m as [|[k' v'] m IH]; simpl; [reflexivity|].
  destruct (String.eqb_spec k k') as [->|Hk]; simpl.
  - discriminate.
  - intros H. now rewrite IH.
Qed.

Lemma wf_set m k v : wf m -> wf (set k v m).
Proof.
  unfold wf. intros Hwf. destruct (get k m) eqn:E.
  - rewrite keys_set_tracked; [assumption | congruence].
  - rewrite keys_set_untracked by assumption.
    apply get_None_keys in E.
    apply NoDup_rev in Hwf. rewrite <- (rev_involutive (keys m ++ [k])).
    apply NoDup_rev. rewrite rev_app_distr. simpl. constructor.
    + now rewrite <- in_rev.
    + assumption.
Qed.

Lemma keys_delete_subset m k k' : In k' (keys (delete k m)) -> In k' (keys m).
Proof.
  induction m as [|[k0 v0] m IH]; simpl; [tauto|].
  destruct (String.eqb k k0); simpl; tauto.
Qed.

Lemma wf_delete m k : wf m -> wf (delete k m).
Proof.
  unfold wf. induction m as [|[k0 v0] m IH]; simpl; [trivial|].
  intros Hnd. inversion Hnd as [|? ? Hnotin Hnd']; subst.
  destruct (String.eqb k k0); simpl; [assumption|].
  constructor; [|now apply IH].
  intros Hin. apply Hnotin. now apply keys_delete_subset in Hin.
Qed.

Lemma get_delete_ne m k k' : k <> k' -> get k' (delete k m) = get k' m.
Proof.
  intros Hne. induction m as [|[k0 v0] m IH]; simpl; [reflexivity|].
  destruct (String.eqb_spec k k0) as [->|Hk]; simpl.
  - destruct (String.eqb_spec k' k0); [congruence | reflexivity].
  - now rewrite IH.
Qed.

Lemma get_delete_eq m k : wf m -> get k (delete k m) = None.
Proof.
  unfold wf. induction m as [|[k0 v0] m IH]; simpl; [reflexivity|].
  intros Hnd. inversion Hnd as [|? ? Hnotin Hnd']; subst.
  destruct (String.eqb_spec k k0) as [->|Hk]; simpl.
  - now apply get_None_keys.
  - destruct (String.eqb_spec k k0); [congruence | now apply IH].
Qed.

Lemma has_true_get m k : has k m = true <-> get k m <> None.
Proof.
  unfold has. destruct (get k m); split; congruence.
Qed.

End Facts.

End JsMapFacts.

(* ===================================================================== *)
(** * The aggregator: single updates, deletion, reset *)
(* ===================================================================== *)

Module ProviderFacts.

Import JsMapFacts.

Section Facts.
Context {Tree : Type}.
Implicit Types (p : DiagnosticsProvider Tree) (uri : string)
  (kind : DiagnosticKind) (ds : list Diagnostic).

(** What [updateDiagnostics] does to the map, whatever it schedules. *)
Lemma currentDiagnostics_updateDiagnostics p uri kind ds :
  currentDiagnostics (updateDiagnostics uri kind ds p) =
  match JsMap.get uri (currentDiagnostics p) with
  | Some fd =>
      JsMap.set uri (FileDiagnosticsOps.setForKind kind ds fd)
        (currentDiagnostics p)
  | None =>
      match ds with
      | [] => currentDiagnostics p
      | _ :: _ =>
          JsMap.set uri
            (FileDiagnosticsOps.setForKind kind ds (FileDiagnosticsOps.new uri))
            (currentDiagnostics p)
      end
  end.
Proof.
  unfold updateDiagnostics.
  destruct (JsMap.get uri (currentDiagnostics p)) as [fd|].
  - unfold FileDiagnosticsOps.update.
    destruct (negb _); reflexivity.
  - destruct ds; reflexivity.
Qed.

Lemma get_updateDiagnostics_ne p uri uri' kind ds :
  uri <> uri' ->
  JsMap.get uri' (currentDiagnostics (updateDiagnostics uri kind ds p)) =
  JsMap.get uri' (currentDiagnostics p).
Proof.
  intros Hne. rewrite currentDiagnostics_updateDiagnostics.
  destruct (JsMap.get uri (currentDiagnostics p)).
  - now apply get_set_ne.
  - destruct ds; [reflexivity | now apply get_set_ne].
Qed.

Lemma wf_updateDiagnostics p uri kind ds :
  JsMap.wf (currentDiagnostics p) ->
  JsMap.wf (currentDiagnostics (updateDiagnostics uri kind ds p)).
Proof.
  intros Hwf. rewrite currentDiagnostics_updateDiagnostics.
  destruct (JsMap.get uri (currentDiagnostics p)).
  - now apply wf_set.
  - destruct ds; [assumption | now apply wf_set].
Qed.

Lemma delete_untracked (m : JsMap.t FileDiagnostics) uri :
  JsMap.get uri m = None -> JsMap.delete uri m = m.
Proof.
  induction m as [|[k v] m IH]; simpl; [reflexivity|].
  destruct (String.eqb uri k); [discriminate|].
  intros H. now rewrite IH.
Qed.

(** ** An update that repeats the stored list is silent *)

Lemma tagsEquals_refl (ts : list DiagnosticTag) : tagsEquals ts ts = true.
Proof.
  unfold tagsEquals.
  assert (H : forallb (fun t => hasTag t ts) ts = true).
  { apply forallb_forall. intros t Ht. unfold hasTag.
    apply existsb_exists. exists t. split; [assumption|]. now destruct t. }
  now rewrite H.
Qed.

Lemma diagnosticsEquals_refl (d : Diagnostic) : diagnosticsEquals d d = true.
Proof.
  unfold diagnosticsEquals, rangeEquals, positionEquals.
  rewrite !String.eqb_refl, !Nat.eqb_refl, tagsEquals_refl.
  now destruct (severity d).
Qed.

Lemma sameMultiset_refl (l : list Diagnostic) :
  FileDiagnosticsOps.sameMultiset l l = true.
Proof.
  induction l as [|d l IH]; simpl; [reflexivity|].
  now rewrite diagnosticsEquals_refl.
Qed.

Lemma setForKind_getForKind kind (fd : FileDiagnostics) :
  FileDiagnosticsOps.setForKind kind (FileDiagnosticsOps.getForKind kind fd) fd
  = fd.
Proof. destruct fd, kind; reflexivity. Qed.

Lemma set_same (m : JsMap.t FileDiagnostics) uri fd :
  JsMap.get uri m = Some fd -> JsMap.set uri fd m = m.
Proof.
  induction m as [|[k v] m IH]; simpl; [discriminate|].
  destruct (String.eqb_spec uri k) as [->|Hne].
  - now intros [= ->].
  - intros H. now rewrite IH.
Qed.

(** An update that delivers the list the record already holds for the kind
    changes nothing and schedules nothing. *)
Lemma updateDiagnostics_repeated p uri kind fd :
  JsMap.get uri (currentDiagnostics p) = Some fd ->
  updateDiagnostics uri kind (FileDiagnosticsOps.getForKind kind fd) p = p.
Proof.
  intros Hget. unfold updateDiagnostics, FileDiagnosticsOps.update.
  rewrite Hget, setForKind_getForKind, sameMultiset_refl. simpl.
  rewrite set_same by assumption. now destruct p.
Qed.

(** C3. An update that delivers the empty list for a URI the aggregator does
    not track leaves the provider as it is: no record, the same map, nothing
    scheduled and nothing sent.  After an update of an untracked URI the URI
    is tracked exactly when the delivered list is not empty. *)
Theorem updateDiagnostics_untracked p uri kind :
  JsMap.get uri (currentDiagnostics p) = None ->
  updateDiagnostics uri kind [] p = p
  /\ forall ds,
       JsMap.has uri (currentDiagnostics (updateDiagnostics uri kind ds p))
         = true
       <-> ds <> [].
Proof.
  intros Hnone. split.
  - unfold updateDiagnostics. rewrite Hnone. simpl.
    destruct p; reflexivity.
  - intros ds. rewrite has_true_get, currentDiagnostics_updateDiagnostics.
    rewrite Hnone. destruct ds as [|d ds].
    + rewrite Hnone. split; congruence.
    + rewrite get_set_eq. split; congruence.
Qed.

(** C4. Deleting a URI leaves no record for it, keeps every other record,
    and sends the empty list for it at once; on a URI that is not tracked the
    map stays as it is and the empty list is sent all the same. *)
Theorem deleteDiagnostics_publishes_empty p uri :
  JsMap.wf (currentDiagnostics p) ->
  let p' := deleteDiagnostics uri p in
  JsMap.get uri (currentDiagnostics p') = None
  /\ (forall uri', uri <> uri' ->
        JsMap.get uri' (currentDiagnostics p')
        = JsMap.get uri' (currentDiagnostics p))
  /\ sentDiagnostics p' = sentDiagnostics p ++ [mkPublish uri []]
  /\ (JsMap.get uri (currentDiagnostics p) = None ->
        currentDiagnostics p' = currentDiagnostics p).
Proof.
  intros Hwf. simpl. repeat split.
  - now apply get_delete_eq.
  - intros uri' Hne. now apply get_delete_ne.
  - intros Hnone. now apply delete_untracked.
Qed.

(** One round of [resetDiagnostics] over the entries of the map, for any
    list of entries: an entry of the results is kept, and a missing one is
    synthesized when some entry of the file holds a non-empty list. *)
Lemma get_reset_entries kind uri (entries : JsMap.t FileDiagnostics) :
  forall acc : JsMap.t (list Diagnostic),
  JsMap.get uri
    (JsMap.forEach
       (fun fileDiagnostics diagnosticsUri acc =>
          if negb (JsMap.has diagnosticsUri acc)
             && Nat.ltb 0 (length (FileDiagnosticsOps.getForKind kind
                                     fileDiagnostics))
          then JsMap.set diagnosticsUri [] acc
          else acc)
       entries acc) =
  match JsMap.get uri acc with
  | Some l => Some l
  | None =>
      if existsb (fun kv =>
                    String.eqb (fst kv) uri
                    && Nat.ltb 0 (length (FileDiagnosticsOps.getForKind kind
                                            (snd kv))))
           entries
      then Some [] else None
  end.
Proof.
  unfold JsMap.forEach.
  induction entries as [|[k fd] entries IH]; intros acc; simpl.
  - destruct (JsMap.get uri acc); reflexivity.
  - rewrite IH. clear IH. unfold JsMap.has.
    destruct (String.eqb_spec k uri) as [->|Hne]; simpl.
    + destruct (JsMap.get uri acc) as [l|] eqn:Hacc; simpl.
      * now rewrite Hacc.
      * destruct (Nat.ltb 0 _); simpl.
        -- now rewrite get_set_eq.
        -- now rewrite Hacc.
    + destruct (negb _ && _).
      * now rewrite get_set_ne.
      * reflexivity.
Qed.

Lemma holds_non_empty_stored p kind uri :
  JsMap.wf (currentDiagnostics p) ->
  existsb (fun kv =>
             String.eqb (fst kv) uri
             && Nat.ltb 0 (length (FileDiagnosticsOps.getForKind kind (snd kv))))
    (currentDiagnostics p)
  = Nat.ltb 0 (length (storedForKind kind uri p)).
Proof.
  unfold storedForKind, JsMap.wf.
  generalize (currentDiagnostics p) as m.
  induction m as [|[k fd] m IH]; simpl; [reflexivity|].
  intros Hnd. inversion Hnd as [|? ? Hnotin Hnd']; subst.
  rewrite (String.eqb_sym uri k).
  destruct (String.eqb_spec k uri) as [->|Hne]; simpl.
  - apply get_None_keys in Hnotin.
    rewrite (IH Hnd'), Hnotin. simpl.
    now rewrite orb_false_r.
  - now apply IH.
Qed.

(** C5. After [resetDiagnostics] the results map holds, for every URI: the
    entry it already had, if it had one; otherwise the empty list if the
    file is tracked with a non-empty list under [kind]; otherwise nothing. *)
Theorem resetDiagnostics_synthesizes p kind
  (newResults : JsMap.t (list Diagnostic)) uri :
  JsMap.wf (currentDiagnostics p) ->
  JsMap.get uri (resetDiagnostics newResults kind p) =
  match JsMap.get uri newResults with
  | Some l => Some l
  | None =>
      if Nat.ltb 0 (length (storedForKind kind uri p)) then Some [] else None
  end.
Proof.
  intros Hwf. unfold resetDiagnostics.
  rewrite get_reset_entries.
  now rewrite holds_non_empty_stored.
Qed.

(** ** Frame: an update touches the map, the debounce counter and the
    timers, and nothing else *)

Lemma updateDiagnostics_frame p uri kind ds :
  let p' := updateDiagnostics uri kind ds p in
  clientSettings p' = clientSettings p
  /\ elmAnalyseDiagnostics p' = elmAnalyseDiagnostics p
  /\ workspaces p' = workspaces p
  /\ listenerTrigger p' = listenerTrigger p
  /\ clock p' = clock p
  /\ sentDiagnostics p' = sentDiagnostics p
  /\ consoleInfo p' = consoleInfo p
  /\ updateFileCalls p' = updateFileCalls p.
Proof.
  unfold updateDiagnostics.
  destruct (JsMap.get uri (currentDiagnostics p)) as [fd|].
  - destruct (FileDiagnosticsOps.update kind ds fd) as [fd' []];
      simpl; repeat split.
  - destruct (Nat.ltb 0 (length ds)); simpl; repeat split.
Qed.

Lemma stored_update_same p uri kind ds :
  storedForKind kind uri (updateDiagnostics uri kind ds p) = ds.
Proof.
  unfold storedForKind. rewrite currentDiagnostics_updateDiagnostics.
  destruct (JsMap.get uri (currentDiagnostics p)) as [fd|] eqn:E.
  - rewrite get_set_eq. destruct kind; reflexivity.
  - destruct ds as [|d ds].
    + now rewrite E.
    + rewrite get_set_eq. destruct kind; reflexivity.
Qed.

Lemma stored_update_other_uri p uri uri' kind k ds :
  uri <> uri' ->
  storedForKind k uri' (updateDiagnostics uri kind ds p)
  = storedForKind k uri' p.
Proof.
  intros Hne. unfold storedForKind.
  now rewrite get_updateDiagnostics_ne.
Qed.

Lemma stored_update_other_kind p uri uri' kind k ds :
  kind <> k ->
  storedForKind k uri' (updateDiagnostics uri kind ds p)
  = storedForKind k uri' p.
Proof.
  intros Hk. destruct (String.eqb_spec uri uri') as [<-|Hne].
  - unfold storedForKind. rewrite currentDiagnostics_updateDiagnostics.
    destruct (JsMap.get uri (currentDiagnostics p)) as [fd|] eqn:E.
    + rewrite get_set_eq. destruct kind, k; try reflexivity; congruence.
    + destruct ds as [|d ds].
      * now rewrite E.
      * rewrite get_set_eq. destruct kind, k; try reflexivity; congruence.
  - now apply stored_update_other_uri.
Qed.

(** A run of updates of one kind, given as (URI, list) pairs. *)
Lemma updates_frame kind (jobs : list (string * list Diagnostic)) :
  forall p,
  let p' := fold_left (fun acc job =>
                         updateDiagnostics (fst job) kind (snd job) acc)
              jobs p in
  clientSettings p' = clientSettings p
  /\ elmAnalyseDiagnostics p' = elmAnalyseDiagnostics p
  /\ workspaces p' = workspaces p
  /\ listenerTrigger p' = listenerTrigger p
  /\ clock p' = clock p
  /\ sentDiagnostics p' = sentDiagnostics p
  /\ consoleInfo p' = consoleInfo p
  /\ updateFileCalls p' = updateFileCalls p.
Proof.
  induction jobs as [|[u ds] jobs IH]; intros p; simpl.
  - repeat split.
  - specialize (IH (updateDiagnostics u kind ds p)). simpl in IH.
    pose proof (updateDiagnostics_frame p u kind ds) as F. simpl in F.
    intuition congruence.
Qed.

Lemma updates_other_kind kind k (jobs : list (string * list Diagnostic)) :
  kind <> k ->
  forall p u,
  storedForKind k u
    (fold_left (fun acc job =>
                  updateDiagnostics (fst job) kind (snd job) acc) jobs p)
  = storedForKind k u p.
Proof.
  intros Hk. induction jobs as [|[u' ds] jobs IH]; intros p u; simpl.
  - reflexivity.
  - rewrite IH. now apply stored_update_other_kind.
Qed.

(** Last write wins: after the run, a URI that has a job holds the list of
    one of its jobs, and a URI that has none keeps its record. *)
Lemma updates_stored kind (jobs : list (string * list Diagnostic)) p u :
  let p' := fold_left (fun acc job =>
                         updateDiagnostics (fst job) kind (snd job) acc)
              jobs p in
  (In u (map fst jobs) ->
   exists ds, In (u, ds) jobs /\ storedForKind kind u p' = ds)
  /\ (~ In u (map fst jobs) ->
      JsMap.get u (currentDiagnostics p') = JsMap.get u (currentDiagnostics p)).
Proof.
  induction jobs as [|[u' ds'] jobs IH] using rev_ind; simpl.
  - split; [tauto | reflexivity].
  - rewrite fold_left_app, map_app. simpl in *.
    destruct IH as [IHin IHout]. split.
    + intros Hin. destruct (String.eqb_spec u' u) as [->|Hne].
      * exists ds'. split; [apply in_or_app; right; now left|].
        apply stored_update_same.
      * apply in_app_or in Hin. destruct Hin as [Hin|[E|[]]]; [|congruence].
        destruct (IHin Hin) as (ds & Hds & Hst).
        exists ds. split; [apply in_or_app; now left|].
        now rewrite stored_update_other_uri.
    + intros Hnotin.
      assert (u' <> u) by (intros ->; apply Hnotin, in_or_app; right; now left).
      rewrite get_updateDiagnostics_ne by assumption.
      apply IHout. intros Hin. apply Hnotin, in_or_app. now left.
Qed.

End Facts.

End ProviderFacts.

(* ===================================================================== *)
(** * The aggregator: the listeners *)
(* ===================================================================== *)

Module ListenerFacts.

Import JsMapFacts ProviderFacts.

Section Facts.
Context {Tree : Type}.
Variable lint : Tree -> string -> IElmWorkspace Tree -> list Diagnostic.
Variable typeInference :
  ITreeContainer Tree -> IElmWorkspace Tree -> list Diagnostic.
Variable getElmWorkspaceFor : string -> JsError + IElmWorkspace Tree.
Implicit Types (p : DiagnosticsProvider Tree) (uri : string)
  (kind : DiagnosticKind) (ds : list Diagnostic).

(** ** Configuration changes *)

Lemma keys_clear p uri kind :
  JsMap.keys (currentDiagnostics (updateDiagnostics uri kind [] p))
  = JsMap.keys (currentDiagnostics p).
Proof.
  rewrite currentDiagnostics_updateDiagnostics.
  destruct (JsMap.get uri (currentDiagnostics p)) eqn:E; [|reflexivity].
  apply keys_set_tracked. congruence.
Qed.

Lemma clear_all_keys kind (uris : list (string * FileDiagnostics)) :
  forall p,
  JsMap.keys
    (currentDiagnostics
       (JsMap.forEach (fun _ uri acc => updateDiagnostics uri kind [] acc)
          uris p))
  = JsMap.keys (currentDiagnostics p).
Proof.
  unfold JsMap.forEach.
  induction uris as [|[u fd] uris IH]; intros p; simpl; [reflexivity|].
  rewrite IH. apply keys_clear.
Qed.

Lemma clear_all_as_jobs kind (uris : list (string * FileDiagnostics)) :
  forall p,
  JsMap.forEach (fun _ uri acc => updateDiagnostics uri kind [] acc) uris p
  = fold_left (fun acc job => updateDiagnostics (fst job) kind (snd job) acc)
      (map (fun kv => (fst kv, @nil Diagnostic)) uris) p.
Proof.
  unfold JsMap.forEach.
  induction uris as [|[u fd] uris IH]; intros p; simpl; [reflexivity|].
  apply IH.
Qed.

Lemma relintWorkspace_as_jobs (ws : IElmWorkspace Tree) p :
  relintWorkspace lint p ws
  = fold_left (fun acc job => updateDiagnostics (fst job) ElmLS (snd job) acc)
      (lintJobsOf lint ws) p.
Proof.
  unfold relintWorkspace, lintJobsOf, JsMap.forEach.
  revert p. induction (treeMap ws) as [|[k tc] m IH]; intros p; simpl.
  - reflexivity.
  - rewrite fold_left_app, IH. unfold relintTreeContainer.
    destruct (writeable tc); reflexivity.
Qed.

Lemma relint_as_jobs (wss : list (IElmWorkspace Tree)) :
  forall p,
  fold_left (relintWorkspace lint) wss p
  = fold_left (fun acc job => updateDiagnostics (fst job) ElmLS (snd job) acc)
      (lintJobs lint wss) p.
Proof.
  induction wss as [|ws wss IH]; intros p; simpl; [reflexivity|].
  now rewrite fold_left_app, IH, relintWorkspace_as_jobs.
Qed.

Lemma in_lintJobs (wss : list (IElmWorkspace Tree)) u ds :
  In (u, ds) (lintJobs lint wss) <->
  exists ws k tc,
    In ws wss /\ In (k, tc) (treeMap ws) /\ writeable tc = true
    /\ u = tc_uri tc /\ ds = lint (tree tc) (tc_uri tc) ws.
Proof.
  unfold lintJobs, lintJobsOf. rewrite in_flat_map. split.
  - intros (ws & Hws & Hin). apply in_flat_map in Hin.
    destruct Hin as ([k tc] & Hkv & Hjob). simpl in Hjob.
    destruct (writeable tc) eqn:W; [|contradiction].
    destruct Hjob as [[= <- <-]|[]].
    exists ws, k, tc. auto.
  - intros (ws & k & tc & Hws & Hkv & W & -> & ->).
    exists ws. split; [assumption|]. apply in_flat_map.
    exists (k, tc). split; [assumption|]. simpl. rewrite W. now left.
Qed.

(** C6, as the code has it.  The new settings are stored.  When they switch
    the rule engine off, the set of tracked files stays the same, every
    file's ElmLS list is empty afterwards, the lists of the other kinds are
    kept, and the rule engine plays no part in the result.  When they leave
    it on, every writeable tree container of every workspace's forest has
    its ElmLS list recomputed (tracked or not), a file that has no such
    container keeps its record, and the lists of the other kinds are kept. *)
Theorem onDidChangeConfiguration_lint (settings : IClientSettings) p :
  let p' := onDidChangeConfiguration lint settings p in
  clientSettings p' = settings
  /\ if disableElmLSDiagnostics settings then
       JsMap.keys (currentDiagnostics p') = JsMap.keys (currentDiagnostics p)
       /\ (forall u, storedForKind ElmLS u p' = [])
       /\ (forall u k, k <> ElmLS ->
             storedForKind k u p' = storedForKind k u p)
       /\ (forall lint', onDidChangeConfiguration lint' settings p = p')
     else
       (forall ws k tc,
          In ws (workspaces p) -> In (k, tc) (treeMap ws) ->
          writeable tc = true ->
          exists ws' k' tc',
            In ws' (workspaces p) /\ In (k', tc') (treeMap ws')
            /\ writeable tc' = true /\ tc_uri tc' = tc_uri tc
            /\ storedForKind ElmLS (tc_uri tc) p'
               = lint (tree tc') (tc_uri tc') ws')
       /\ (forall u,
             (forall ws k tc,
                In ws (workspaces p) -> In (k, tc) (treeMap ws) ->
                writeable tc = true -> tc_uri tc <> u) ->
             JsMap.get u (currentDiagnostics p')
             = JsMap.get u (currentDiagnostics p))
       /\ (forall u k, k <> ElmLS ->
             storedForKind k u p' = storedForKind k u p).
Proof.
  unfold onDidChangeConfiguration. simpl.
  destruct (disableElmLSDiagnostics settings) eqn:Hoff.
  - split; [|split; [|split; [|split]]].
    + rewrite clear_all_as_jobs.
      now destruct (updates_frame ElmLS
                      (map (fun kv => (fst kv, @nil Diagnostic))
                         (currentDiagnostics p))
                      (with_clientSettings settings p)) as (-> & _).
    + apply (clear_all_keys ElmLS (currentDiagnostics p)
               (with_clientSettings settings p)).
    + intros u. rewrite clear_all_as_jobs.
      destruct (updates_stored ElmLS
                  (map (fun kv => (fst kv, @nil Diagnostic))
                     (currentDiagnostics p))
                  (with_clientSettings settings p) u) as [Hin Hout].
      simpl in Hin, Hout.
      destruct (in_dec string_dec u
                  (map fst (map (fun kv => (fst kv, @nil Diagnostic))
                              (currentDiagnostics p)))) as [Hu|Hu].
      * destruct (Hin Hu) as (ds & Hds & ->).
        apply in_map_iff in Hds. destruct Hds as (kv & [= _ <-] & _).
        reflexivity.
      * unfold storedForKind. rewrite (Hout Hu). simpl.
        rewrite map_map in Hu. simpl in Hu.
        apply get_None_keys in Hu. unfold JsMap.keys in Hu.
        now rewrite Hu.
    + intros u k Hk. rewrite clear_all_as_jobs.
      rewrite updates_other_kind by congruence. reflexivity.
    + intros lint'. reflexivity.
  - rewrite relint_as_jobs.
    split; [|split; [|split]].
    + now destruct (updates_frame ElmLS (lintJobs lint (workspaces p))
                      (with_clientSettings settings p)) as (-> & _).
    + intros ws k tc Hws Hkv W.
      destruct (updates_stored ElmLS (lintJobs lint (workspaces p))
                  (with_clientSettings settings p) (tc_uri tc)) as [Hin _].
      simpl in Hin.
      destruct Hin as (ds & Hds & Hst).
      { apply in_map_iff. exists (tc_uri tc, lint (tree tc) (tc_uri tc) ws).
        split; [reflexivity|]. apply in_lintJobs. exists ws, k, tc. auto. }
      apply in_lintJobs in Hds.
      destruct Hds as (ws' & k' & tc' & Hws' & Hkv' & W' & Hu & ->).
      exists ws', k', tc'. auto.
    + intros u Hnone.
      destruct (updates_stored ElmLS (lintJobs lint (workspaces p))
                  (with_clientSettings settings p) u) as [_ Hout].
      simpl in Hout. rewrite Hout; [reflexivity|].
      intros Hin. apply in_map_iff in Hin. destruct Hin as ([u' ds] & <- & Hj).
      apply in_lintJobs in Hj.
      destruct Hj as (ws & k & tc & Hws & Hkv & W & -> & _).
      now apply (Hnone ws k tc).
    + intros u k Hk. rewrite updates_other_kind by congruence. reflexivity.
Qed.

(** ** Tree changes *)

(** C7. When the workspace matcher fails on the file of a tree-change event
    with [NoWorkspaceContainsError], the listener returns normally, the
    error's message is logged, and the map, the timers and what was sent are
    as before; when it fails with any other error, the listener throws that
    error and leaves the provider as it was. *)
Theorem onTreeChange_lookup_failure (treeContainer : ITreeContainer Tree) p
  (e : JsError) :
  getElmWorkspaceFor (tc_uri treeContainer) = inl e ->
  match e with
  | NoWorkspaceContainsError msg =>
      exists p',
        onTreeChange lint typeInference getElmWorkspaceFor treeContainer p
        = Returned p'
        /\ consoleInfo p' = consoleInfo p ++ [msg]
        /\ currentDiagnostics p' = currentDiagnostics p
        /\ timers p' = timers p
        /\ sentDiagnostics p' = sentDiagnostics p
  | OtherError _ _ =>
      onTreeChange lint typeInference getElmWorkspaceFor treeContainer p
      = Thrown e p
  end.
Proof.
  intros Hfail. unfold onTreeChange. rewrite Hfail.
  destruct e as [msg|name msg].
  - eexists. split; [reflexivity|]. simpl. repeat split.
  - reflexivity.
Qed.

(** ** Document events *)

Lemma stored_elmAnalyse_updateFile kind uri u text p :
  storedForKind kind u (elmAnalyse_updateFile uri text p)
  = storedForKind kind u p.
Proof. reflexivity. Qed.

(** The provider on which [getDiagnostics] evaluates its condition. *)
Lemma getDiagnostics_build (document : TextDocument) (isSaveOrOpen : bool)
  (trigger : ElmAnalyseTrigger) (elmMakeResult : JsMap.t (list Diagnostic)) p :
  exists p1,
    getDiagnostics document isSaveOrOpen trigger elmMakeResult p
    = (if elmAnalyseDiagnostics p
          && negb (triggerEquals trigger never)
          && Nat.eqb (length (storedForKind ElmMake (doc_uri document) p1)) 0
       then elmAnalyse_updateFile (doc_uri document) (doc_text document) p1
       else p1)
    /\ updateFileCalls p1 = updateFileCalls p
    /\ (forall u, storedForKind ElmAnalyse u p1 = storedForKind ElmAnalyse u p).
Proof.
  unfold getDiagnostics, truthy. simpl.
  destruct isSaveOrOpen.
  - match goal with
    | |- context [JsMap.forEach ?f ?m ?q] =>
        set (jobs := m); set (p0 := q);
        change (JsMap.forEach f jobs p0)
          with (fold_left (fun acc job =>
                             updateDiagnostics (fst job) ElmMake (snd job) acc)
                  jobs p0)
    end.
    eexists. split; [|split].
    + destruct (updates_frame ElmMake jobs p0) as (_ & -> & _).
      reflexivity.
    + now destruct (updates_frame ElmMake jobs p0)
        as (_ & _ & _ & _ & _ & _ & _ & ->).
    + intros u. rewrite updates_other_kind by discriminate. reflexivity.
  - eexists. split; [reflexivity|]. split; reflexivity.
Qed.

(** C10. On an open, save or change event, elm-analyse is either not asked,
    or asked once for the document while the ElmMake list stored for the
    document is empty (or the document is not tracked); it is asked exactly
    when a listener is registered for the event, the elm-analyse source
    exists, its trigger is not ["never"] and that list is empty.  The
    ElmAnalyse list stored for any file is as before either way. *)
Theorem getDiagnostics_gates_elmAnalyse (ev : TextDocumentEvent)
  (document : TextDocument) (elmMakeResult : JsMap.t (list Diagnostic)) p :
  let p' := onTextDocumentEvent ev document elmMakeResult p in
  let uri := doc_uri document in
  let asked := updateFileCalls p ++ [(uri, doc_text document)] in
  (updateFileCalls p' = updateFileCalls p
   \/ (updateFileCalls p' = asked /\ storedForKind ElmMake uri p' = []))
  /\ updateFileCalls p'
     = (if match ev with
           | EvChange => triggerEquals (listenerTrigger p) change
           | _ => true
           end
           && elmAnalyseDiagnostics p
           && negb (triggerEquals (listenerTrigger p) never)
           && Nat.eqb (length (storedForKind ElmMake uri p')) 0
        then asked else updateFileCalls p)
  /\ (forall u, storedForKind ElmAnalyse u p' = storedForKind ElmAnalyse u p).
Proof.
  assert (G : forall isSaveOrOpen,
    let p' := getDiagnostics document isSaveOrOpen (listenerTrigger p)
                elmMakeResult p in
    let uri := doc_uri document in
    let asked := updateFileCalls p ++ [(uri, doc_text document)] in
    (updateFileCalls p' = updateFileCalls p
     \/ (updateFileCalls p' = asked /\ storedForKind ElmMake uri p' = []))
    /\ updateFileCalls p'
       = (if elmAnalyseDiagnostics p
             && negb (triggerEquals (listenerTrigger p) never)
             && Nat.eqb (length (storedForKind ElmMake uri p')) 0
          then asked else updateFileCalls p)
    /\ (forall u, storedForKind ElmAnalyse u p' = storedForKind ElmAnalyse u p)).
  { intros isSaveOrOpen.
    destruct (getDiagnostics_build document isSaveOrOpen (listenerTrigger p)
                elmMakeResult p) as (p1 & Heq & Hcalls & Hstored).
    simpl. rewrite Heq.
    destruct (elmAnalyseDiagnostics p && negb (triggerEquals (listenerTrigger p) never));
      simpl.
    - destruct (Nat.eqb (length (storedForKind ElmMake (doc_uri document) p1)) 0)
        eqn:Hlen.
      + rewrite stored_elmAnalyse_updateFile, Hlen. simpl. rewrite Hcalls.
        split; [|split].
        * right. split; [reflexivity|].
          apply Nat.eqb_eq in Hlen. now apply length_zero_iff_nil.
        * reflexivity.
        * intros u. now rewrite stored_elmAnalyse_updateFile.
      + rewrite Hlen. auto.
    - auto. }
  simpl. destruct ev; simpl.
  - apply (G true).
  - apply (G true).
  - destruct (triggerEquals (listenerTrigger p) change); simpl.
    + apply (G false).
    + auto.
Qed.

(** ** Debouncing *)

(** A changing update arms a timer of a debounced function made for that
    call; with every pending timer owned by an earlier debounced function, no
    pending timer is cleared. *)
Lemma updateDiagnostics_clears_no_timer p uri kind ds :
  Forall (fun t => owner t < debouncedCount p) (timers p) ->
  let p' := updateDiagnostics uri kind ds p in
  (timers p' = timers p
   \/ timers p' = timers p ++ [mkTimer (debouncedCount p) (clock p + 50) uri])
  /\ Forall (fun t => owner t < debouncedCount p') (timers p').
Proof.
  intros Hown.
  assert (Hkeep : filter (fun t => negb (Nat.eqb (owner t) (debouncedCount p)))
                    (timers p) = timers p).
  { induction Hown as [|t ts Ht _ IH]; simpl; [reflexivity|].
    destruct (Nat.eqb_spec (owner t) (debouncedCount p)); [lia|].
    simpl. now rewrite IH. }
  assert (Hnext : Forall (fun t => owner t < S (debouncedCount p))
                    (timers p ++ [mkTimer (debouncedCount p) (clock p + 50) uri])).
  { apply Forall_app. split.
    - eapply Forall_impl; [|exact Hown]. simpl. intros; lia.
    - repeat constructor. }
  unfold updateDiagnostics, debounce, callDebounced.
  destruct (JsMap.get uri (currentDiagnostics p)) as [fd|].
  - destruct (FileDiagnosticsOps.update kind ds fd) as [fd' []]; simpl.
    + rewrite Hkeep. auto.
    + auto.
  - destruct (Nat.ltb 0 (length ds)); simpl.
    + rewrite Hkeep. auto.
    + auto.
Qed.

(** ** The invariant holds along every run *)

Lemma fold_left_preserves {A B : Type} (P : A -> Prop) (f : A -> B -> A)
  (l : list B) :
  (forall a b, P a -> P (f a b)) -> forall a, P a -> P (fold_left f l a).
Proof.
  intros Hstep. induction l as [|b l IH]; intros a Ha; simpl; auto.
Qed.

Lemma invariant_updateDiagnostics p uri kind ds :
  invariant p -> invariant (updateDiagnostics uri kind ds p).
Proof.
  intros [Hwf Hown]. split.
  - now apply wf_updateDiagnostics.
  - now apply updateDiagnostics_clears_no_timer.
Qed.

Lemma invariant_deleteDiagnostics p uri :
  invariant p -> invariant (deleteDiagnostics uri p).
Proof.
  intros [Hwf Hown]. split; simpl; [now apply wf_delete | assumption].
Qed.

Lemma invariant_sendDiagnostics p uri :
  invariant p -> invariant (sendDiagnostics uri p).
Proof. intros [Hwf Hown]. split; assumption. Qed.

Lemma invariant_elapse p ms : invariant p -> invariant (elapse ms p).
Proof.
  intros [Hwf Hown]. unfold elapse.
  apply fold_left_preserves.
  - intros a t. apply invariant_sendDiagnostics.
  - split; simpl; [assumption|].
    apply Forall_forall. intros t Ht. apply filter_In in Ht.
    rewrite Forall_forall in Hown. now apply Hown.
Qed.

Lemma invariant_updates kind (jobs : JsMap.t (list Diagnostic)) p :
  invariant p ->
  invariant
    (JsMap.forEach (fun ds uri acc => updateDiagnostics uri kind ds acc)
       jobs p).
Proof.
  unfold JsMap.forEach. apply fold_left_preserves.
  intros a b. apply invariant_updateDiagnostics.
Qed.

Lemma invariant_newElmAnalyseDiagnostics
  (diagnostics : JsMap.t (list Diagnostic)) p :
  invariant p -> invariant (newElmAnalyseDiagnostics diagnostics p).
Proof. apply invariant_updates. Qed.

Lemma invariant_onDidChangeWatchedFiles (changes : list FileEvent) p :
  invariant p -> invariant (onDidChangeWatchedFiles changes p).
Proof.
  unfold onDidChangeWatchedFiles. apply fold_left_preserves.
  intros a uri. apply invariant_deleteDiagnostics.
Qed.

Lemma invariant_onDidChangeConfiguration (settings : IClientSettings) p :
  invariant p -> invariant (onDidChangeConfiguration lint settings p).
Proof.
  intros Hinv. unfold onDidChangeConfiguration. simpl.
  destruct (disableElmLSDiagnostics settings).
  - unfold JsMap.forEach. apply fold_left_preserves.
    + intros a b. apply invariant_updateDiagnostics.
    + exact Hinv.
  - apply fold_left_preserves; [|exact Hinv].
    intros a ws. unfold relintWorkspace, JsMap.forEach.
    apply fold_left_preserves. intros a' kv. unfold relintTreeContainer.
    destruct (writeable (snd kv)); [apply invariant_updateDiagnostics | auto].
Qed.

Lemma invariant_onTreeChange (treeContainer : ITreeContainer Tree) p :
  invariant p ->
  invariant
    (afterOutcome
       (onTreeChange lint typeInference getElmWorkspaceFor treeContainer p)).
Proof.
  intros Hinv. unfold onTreeChange.
  destruct (getElmWorkspaceFor (tc_uri treeContainer)) as [[msg|name msg]|ws];
    simpl; try exact Hinv.
  match goal with
  | |- context [if ?c then _ else _] => destruct c
  end; simpl; repeat apply invariant_updateDiagnostics; exact Hinv.
Qed.

Lemma invariant_getDiagnostics (document : TextDocument) (isSaveOrOpen : bool)
  (trigger : ElmAnalyseTrigger) (elmMakeResult : JsMap.t (list Diagnostic)) p :
  invariant p ->
  invariant (getDiagnostics document isSaveOrOpen trigger elmMakeResult p).
Proof.
  intros Hinv. unfold getDiagnostics.
  match goal with
  | |- invariant (if ?c then elmAnalyse_updateFile ?u ?t ?q else ?q) =>
      assert (Hq : invariant q);
      [|destruct c; [destruct Hq; split; assumption | exact Hq]]
  end.
  destruct isSaveOrOpen.
  - apply invariant_updates. destruct Hinv. split; assumption.
  - destruct Hinv. split; assumption.
Qed.

Lemma invariant_handle (e : Event Tree) p :
  invariant p ->
  invariant (handle lint typeInference getElmWorkspaceFor p e).
Proof.
  intros Hinv. destruct e as [ev doc res|changes|settings|tc|res|ms]; simpl.
  - unfold onTextDocumentEvent.
    destruct ev; try now apply invariant_getDiagnostics.
    destruct (triggerEquals (listenerTrigger p) change);
      [now apply invariant_getDiagnostics | exact Hinv].
  - now apply invariant_onDidChangeWatchedFiles.
  - now apply invariant_onDidChangeConfiguration.
  - now apply invariant_onTreeChange.
  - destruct (elmAnalyseDiagnostics p);
      [now apply invariant_newElmAnalyseDiagnostics | exact Hinv].
  - now apply invariant_elapse.
Qed.

Lemma invariant_constructor (settings : IClientSettings) (resolved : bool)
  (elmWorkspaces : list (IElmWorkspace Tree)) :
  invariant (constructor lint typeInference settings resolved elmWorkspaces).
Proof.
  unfold constructor. apply fold_left_preserves.
  - intros a ws. unfold initWorkspace, JsMap.forEach.
    apply fold_left_preserves. intros a' kv. unfold initTreeContainer.
    destruct (writeable (snd kv)); [|auto].
    match goal with
    | |- context [if ?c then _ else _] => destruct c
    end; intros H; repeat apply invariant_updateDiagnostics; exact H.
  - split; simpl; constructor.
Qed.

(** Every provider met in a run from a constructed provider satisfies the
    invariant; so the hypotheses of C4 and C5 hold there, and no update
    there clears a pending timer. *)
Lemma invariant_run (events : list (Event Tree)) (settings : IClientSettings)
  (resolved : bool) (elmWorkspaces : list (IElmWorkspace Tree)) :
  invariant
    (run lint typeInference getElmWorkspaceFor events
       (constructor lint typeInference settings resolved elmWorkspaces)).
Proof.
  unfold run. apply fold_left_preserves.
  - intros a e. apply invariant_handle.
  - apply invariant_constructor.
Qed.

(** A debounced function that is made once does coalesce: called twice
    within the window, it fires once. *)
Lemma shared_debounced_function_fires_once :
  sentDiagnostics Runs.shared_done = [mkPublish Runs.mainUri []].
Proof. reflexivity. Qed.

(** C1, on the run [burst_first], [burst_second], [burst_done]: two changing
    updates of one file 10 ms apart, each a republish request, are followed
    by two emissions for the file, not one; both carry the merged state as it
    is when the timers fire. *)
Theorem burst_is_sent_twice :
  clock Runs.burst_second - clock Runs.burst_first = 10
  /\ length (timers Runs.burst_second) = 2
  /\ sentDiagnostics Runs.burst_done
     = [ mkPublish Runs.mainUri [Runs.d2; Runs.d1];
         mkPublish Runs.mainUri [Runs.d2; Runs.d1] ].
Proof. repeat split. Qed.

End Facts.

End ListenerFacts.

(* ===================================================================== *)
(** * The rule engine *)
(* ===================================================================== *)

Module ElmFacts.

Import Elm.

Lemma mem_In n l : mem n l = true <-> In n l.
Proof.
  unfold mem. rewrite existsb_exists. split.
  - intros (x & Hx & E). apply String.eqb_eq in E. now subst.
  - intros H. exists n. split; [assumption | apply String.eqb_refl].
Qed.

Lemma mem_not_In n l : mem n l = false <-> ~ In n l.
Proof.
  rewrite <- mem_In. destruct (mem n l); split; congruence.
Qed.

(** ** Reachability only follows edges *)

Lemma In_addAll x new : forall visited,
  In x (addAll new visited) -> In x new \/ In x visited.
Proof.
  induction new as [|n new IH]; intros visited; simpl; [tauto|].
  destruct (mem n visited).
  - intros H. destruct (IH _ H); tauto.
  - intros H. destruct (IH _ H) as [H'|H']; [tauto|].
    apply in_app_or in H'. simpl in H'. tauto.
Qed.

Lemma closure_sound m x fuel : forall visited,
  In x (closure fuel m visited) ->
  In x visited \/ exists n, In x (successors m n).
Proof.
  induction fuel as [|fuel IH]; intros visited; simpl; [tauto|].
  intros H. destruct (IH _ H) as [H'|H']; [|tauto].
  apply In_addAll in H'. destruct H' as [H'|H']; [|tauto].
  apply in_flat_map in H'. destruct H' as (n & _ & Hn). right. now exists n.
Qed.

(** ** [reachable] computes reachability *)

Lemma In_addAll_visited x new : forall visited,
  In x visited -> In x (addAll new visited).
Proof.
  induction new as [|n new IH]; intros visited Hx; simpl; [assumption|].
  destruct (mem n visited); apply IH; [assumption|].
  apply in_or_app. now left.
Qed.

Lemma In_addAll_new x new : forall visited,
  In x new -> In x (addAll new visited).
Proof.
  induction new as [|n new IH]; intros visited Hx; simpl; [contradiction|].
  destruct Hx as [->|Hx].
  - destruct (mem x visited) eqn:E.
    + apply In_addAll_visited. now apply mem_In.
    + apply In_addAll_visited. apply in_or_app. right. now left.
  - destruct (mem n visited); now apply IH.
Qed.

(** One more round can be taken last instead of first. *)
Lemma closure_S m fuel : forall visited,
  closure (S fuel) m visited
  = addAll (flat_map (successors m) (closure fuel m visited))
      (closure fuel m visited).
Proof.
  induction fuel as [|fuel IH]; intros visited; [reflexivity|].
  change (closure (S (S fuel)) m visited)
    with (closure (S fuel) m
            (addAll (flat_map (successors m) visited) visited)).
  now rewrite IH.
Qed.

Lemma closure_mono m x visited fuel extra :
  In x (closure fuel m visited) -> In x (closure (fuel + extra) m visited).
Proof.
  intros Hx. induction extra as [|extra IH].
  - now rewrite Nat.add_0_r.
  - rewrite Nat.add_succ_r, closure_S. now apply In_addAll_visited.
Qed.

Lemma closure_reaches m x fuel : forall visited,
  (forall y, In y visited -> reaches m y) ->
  In x (closure fuel m visited) -> reaches m x.
Proof.
  induction fuel as [|fuel IH]; intros visited Hvis; simpl; [apply Hvis|].
  apply IH. intros y Hy. apply In_addAll in Hy. destruct Hy as [Hy|Hy].
  - apply in_flat_map in Hy. destruct Hy as (n & Hn & Hy).
    apply reaches_edge with n; [now apply Hvis | assumption].
  - now apply Hvis.
Qed.

Lemma isPath_closure m : forall before x,
  isPath m x before -> In x (closure (length before) m (roots m)).
Proof.
  induction before as [|y rest IH]; intros x; simpl.
  - trivial.
  - intros [Hx Hy]. specialize (IH y Hy).
    change (In x (closure (S (length rest)) m (roots m))).
    rewrite closure_S. apply In_addAll_new.
    apply in_flat_map. now exists y.
Qed.

Lemma isPath_suffix m : forall l1 x before e l2,
  isPath m x before -> x :: before = l1 ++ e :: l2 -> isPath m e l2.
Proof.
  induction l1 as [|a l1 IH]; intros x before e l2 Hp E; simpl in E.
  - injection E as -> ->. exact Hp.
  - injection E as -> ->.
    destruct l1 as [|b l1]; simpl in Hp.
    + destruct Hp as [_ Hp]. exact Hp.
    + destruct Hp as [_ Hp]. now apply (IH b (l1 ++ e :: l2) e l2).
Qed.

(** What is reached is reached by a path that visits no node twice. *)
Lemma reaches_simple_path m x :
  reaches m x -> exists before, isPath m x before /\ NoDup (x :: before).
Proof.
  induction 1 as [r Hr|n e _ (before & Hp & Hnd) He].
  - exists []. split; [exact Hr|]. constructor; [intros []|constructor].
  - destruct (in_dec string_dec e (n :: before)) as [Hin|Hnotin].
    + apply in_split in Hin. destruct Hin as (l1 & l2 & E).
      exists l2. split.
      * now apply (@isPath_suffix m l1 n before e l2).
      * rewrite E in Hnd. now apply NoDup_app_remove_l in Hnd.
    + exists (n :: before). split; [split; assumption|].
      now constructor.
Qed.

Lemma isPath_nodes m : forall before x,
  isPath m x before -> incl before (map fst (graphNodes m)).
Proof.
  induction before as [|y rest IH]; intros x Hp; [intros z []|].
  destruct Hp as [Hx Hy]. intros z [<-|Hz].
  - unfold successors in Hx. apply in_flat_map in Hx.
    destruct Hx as (nd & Hnd & Hx).
    destruct (String.eqb_spec (fst nd) y) as [<-|]; [|contradiction].
    now apply in_map.
  - now apply (IH y).
Qed.

(** [reachable] holds exactly what [reaches] relates: the rounds are enough. *)
Lemma reachable_iff_reaches m x : In x (reachable m) <-> reaches m x.
Proof.
  unfold reachable. split.
  - apply closure_reaches. intros y. apply reaches_root.
  - intros Hx. apply reaches_simple_path in Hx.
    destruct Hx as (before & Hp & Hnd).
    assert (Hlen : length before <= length (graphNodes m)).
    { rewrite <- (length_map fst (graphNodes m)).
      apply NoDup_incl_length.
      - now inversion Hnd.
      - now apply (@isPath_nodes m before x). }
    replace (length (graphNodes m))
      with (length before + (length (graphNodes m) - length before)) by lia.
    apply closure_mono. now apply isPath_closure.
Qed.

Lemma In_graphNodes m nd :
  In nd (graphNodes m) <->
  exists d, In d (declarations m) /\ In nd (declNodes d).
Proof. unfold graphNodes. apply in_flat_map. Qed.

Lemma In_successors m n x :
  In x (successors m n) ->
  exists nd, In nd (graphNodes m) /\ fst nd = n /\ In x (snd nd) /\ x <> n.
Proof.
  unfold successors. rewrite in_flat_map. intros (nd & Hnd & Hx).
  destruct (String.eqb_spec (fst nd) n) as [E|E]; [|contradiction].
  apply filter_In in Hx. destruct Hx as [Hx Hne].
  exists nd. repeat split; try assumption.
  intros ->. now rewrite String.eqb_refl in Hne.
Qed.

Lemma In_portRoots m x :
  In x (portRoots m) ->
  exists p, In (DPort p) (declarations m) /\ In x (typeRefs (port_type p)).
Proof.
  unfold portRoots. destruct (isPortModule m); [|contradiction].
  rewrite in_flat_map. intros (d & Hd & Hx).
  destruct d as [v|t|a|p]; try contradiction. now exists p.
Qed.

(** ** The code of what each evaluator emits *)

Lemma code_unusedTopLevel m d :
  In d (getUnusedTopLevelDiagnostics m) -> code d = "unused_top_level".
Proof.
  unfold getUnusedTopLevelDiagnostics. rewrite in_flat_map.
  intros (decl & _ & Hd). destruct decl as [v|t|a|p]; try contradiction.
  destruct (mem (v_name v) (reachable m)); [contradiction|].
  destruct Hd as [<-|[]]. reflexivity.
Qed.

Lemma code_unusedValueConstructor m d :
  In d (getUnusedValueConstructorDiagnostics m) ->
  code d = "unused_value_constructor".
Proof.
  unfold getUnusedValueConstructorDiagnostics. rewrite in_flat_map.
  intros (decl & _ & Hd). destruct decl as [v|t|a|p]; try contradiction.
  unfold typeUnusedValueConstructors in Hd. apply in_map_iff in Hd.
  destruct Hd as (uv & <- & _). reflexivity.
Qed.

Lemma code_exprMapNothingToNothing e :
  forall d, In d (exprMapNothingToNothing e) ->
            code d = "map_nothing_to_nothing".
Proof.
  induction e as [n|n|txt|e IH|f IHf args IHargs|l IHl op r IHr|s IHs bs IHbs];
    simpl; intros d Hd; try contradiction.
  - now apply IH.
  - apply in_app_or in Hd. destruct Hd as [Hd|Hd]; [now apply IHf|].
    induction IHargs as [|a Ha args _ IHrec]; simpl in Hd; [contradiction|].
    apply in_app_or in Hd. destruct Hd; [now apply Ha | now apply IHrec].
  - apply in_app_or in Hd. destruct Hd; [now apply IHl | now apply IHr].
  - apply in_app_or in Hd. destruct Hd as [Hd|Hd]; [now apply IHs|].
    induction IHbs as [|b Hb bs _ IHrec]; simpl in Hd; [contradiction|].
    apply in_app_or in Hd. destruct Hd as [Hd|Hd]; [|now apply IHrec].
    apply in_app_or in Hd. destruct Hd as [Hd|Hd].
    + destruct (mapsNothingToNothing b); [|contradiction].
      destruct Hd as [<-|[]]. reflexivity.
    + destruct Hb as [pat body Hbody rg]. now apply Hbody.
Qed.

Lemma code_mapNothingToNothing m d :
  In d (getMapNothingToNothingDiagnostics m) ->
  code d = "map_nothing_to_nothing".
Proof.
  unfold getMapNothingToNothingDiagnostics. rewrite in_flat_map.
  intros (e & _ & Hd). now apply code_exprMapNothingToNothing in Hd.
Qed.

(** Keeping the diagnostics of one code keeps the output of one evaluator. *)
Lemma withCode_unusedTopLevel m d :
  In d (diagnosticsWithCode "unused_top_level" m)
  <-> In d (getUnusedTopLevelDiagnostics m).
Proof.
  unfold diagnosticsWithCode, createDiagnostics.
  rewrite filter_In, !in_app_iff. split.
  - intros [[H|[H|H]] Hc]; [assumption| |].
    + apply code_unusedValueConstructor in H. rewrite H in Hc. discriminate.
    + apply code_mapNothingToNothing in H. rewrite H in Hc. discriminate.
  - intros H. split; [now left|].
    now rewrite (code_unusedTopLevel _ _ H).
Qed.

Lemma withCode_unusedValueConstructor m d :
  In d (diagnosticsWithCode "unused_value_constructor" m)
  <-> In d (getUnusedValueConstructorDiagnostics m).
Proof.
  unfold diagnosticsWithCode, createDiagnostics.
  rewrite filter_In, !in_app_iff. split.
  - intros [[H|[H|H]] Hc]; [|assumption|].
    + apply code_unusedTopLevel in H. rewrite H in Hc. discriminate.
    + apply code_mapNothingToNothing in H. rewrite H in Hc. discriminate.
  - intros H. split; [right; now left|].
    now rewrite (code_unusedValueConstructor _ _ H).
Qed.

Lemma withCode_mapNothingToNothing m d :
  In d (diagnosticsWithCode "map_nothing_to_nothing" m)
  <-> In d (getMapNothingToNothingDiagnostics m).
Proof.
  unfold diagnosticsWithCode, createDiagnostics.
  rewrite filter_In, !in_app_iff. split.
  - intros [[H|[H|H]] Hc]; [| |assumption].
    + apply code_unusedTopLevel in H. rewrite H in Hc. discriminate.
    + apply code_unusedValueConstructor in H. rewrite H in Hc. discriminate.
  - intros H. split; [right; now right|].
    now rewrite (code_mapNothingToNothing _ _ H).
Qed.

(** ** [unused_top_level] *)

(** C8. A value declaration of a module with an explicit exposing list that
    does not name it, whose name occurs in the defining span of no other
    declaration, is reported [unused_top_level], whatever occurs in its own
    defining span: a reference to itself does not make it reachable. *)
Theorem self_reference_is_unused (m : Module_) (v : ValueDeclaration)
  (items : list ExposedItem) :
  In (DValue v) (declarations m) ->
  exposing m = ExposeList items ->
  ~ In (v_name v) (map exposedName items) ->
  (forall d nd,
     In d (declarations m) -> d <> DValue v -> In nd (declNodes d) ->
     ~ In (v_name v) (snd nd)) ->
  In (unusedTopLevelDiagnostic v) (diagnosticsWithCode "unused_top_level" m).
Proof.
  intros Hdecl Hexp Hnotexp Hothers.
  apply withCode_unusedTopLevel.
  unfold getUnusedTopLevelDiagnostics. apply in_flat_map.
  exists (DValue v). split; [assumption|].
  assert (Hunreach : mem (v_name v) (reachable m) = false).
  { apply mem_not_In. unfold reachable. intros Hreach.
    apply closure_sound in Hreach. destruct Hreach as [Hroot|[n Hsucc]].
    - unfold roots in Hroot. rewrite Hexp in Hroot.
      apply in_app_or in Hroot. destruct Hroot as [Hroot|Hroot]; [tauto|].
      apply In_portRoots in Hroot. destruct Hroot as (port & Hport & Hx).
      apply (Hothers (DPort port) (port_name port, typeRefs (port_type port)));
        [assumption | discriminate | now left | assumption].
    - apply In_successors in Hsucc.
      destruct Hsucc as (nd & Hnd & Hfst & Hx & Hne).
      apply In_graphNodes in Hnd. destruct Hnd as (d & Hd & Hnd).
      destruct d as [v'|t|a|port].
      + destruct Hnd as [<-|[]]. simpl in *.
        assert (Hv : DValue v' <> DValue v) by (intros [= ->]; congruence).
        now apply (Hothers (DValue v') (v_name v', valueRefs v')
                     Hd Hv (or_introl eq_refl)).
      + now apply (Hothers (DType t) nd Hd ltac:(discriminate) Hnd).
      + now apply (Hothers (DAlias a) nd Hd ltac:(discriminate) Hnd).
      + now apply (Hothers (DPort port) nd Hd ltac:(discriminate) Hnd). }
  rewrite Hunreach. now left.
Qed.

(** ** [unused_value_constructor] *)

Lemma In_matchedCtors (m : Module_) (c : string) :
  In c (matchedCtors m) <->
  In c (argumentMatchedCtors m) \/ In c (caseMatchedCtors m).
Proof.
  unfold matchedCtors, argumentMatchedCtors, caseMatchedCtors.
  rewrite !in_flat_map. split.
  - intros (d & Hd & Hc). destruct d as [v|t|a|p]; try contradiction.
    simpl in Hc. apply in_app_or in Hc.
    destruct Hc as [Hc|Hc]; [left | right]; exists (DValue v); auto.
  - intros [(d & Hd & Hc)|(d & Hd & Hc)];
      destruct d as [v|t|a|p]; try contradiction;
      exists (DValue v); (split; [assumption|]); simpl;
      apply in_or_app; [left | right]; assumption.
Qed.

(** C2, as the test-suite has it.  The diagnostics with the code
    [unused_value_constructor] are exactly those of the value constructors
    that no expression of the module references by name, that the pattern of
    no case branch matches, and whose type is not exposed with [(..)]; an
    argument pattern of a function that matches the constructor plays no
    part.  For a constructor that no argument pattern matches, the verdict is
    the one of the rule as the spec words it. *)
Theorem unused_value_constructor_exact (m : Module_) :
  (forall d,
     In d (diagnosticsWithCode "unused_value_constructor" m) <->
     exists t uv,
       In (DType t) (declarations m) /\ In uv (t_variants t)
       /\ d = unusedValueConstructorDiagnostic uv
       /\ ~ In (uv_name uv) (referencedCtors m)
       /\ ~ In (uv_name uv) (caseMatchedCtors m)
       /\ exposedWithConstructors m (t_name t) = false)
  /\ (forall t uv,
        ~ In (uv_name uv) (argumentMatchedCtors m) ->
        isUnusedValueConstructor m t uv
        = spec_isUnusedValueConstructor m t uv).
Proof.
  split.
  - intros d. rewrite withCode_unusedValueConstructor.
    unfold getUnusedValueConstructorDiagnostics. rewrite in_flat_map. split.
    + intros (decl & Hdecl & Hd).
      destruct decl as [v|t|a|p]; try contradiction.
      unfold typeUnusedValueConstructors in Hd. apply in_map_iff in Hd.
      destruct Hd as (uv & <- & Huv). apply filter_In in Huv.
      destruct Huv as [Huv Hunused].
      unfold isUnusedValueConstructor in Hunused.
      apply andb_true_iff in Hunused. destruct Hunused as [Hunused Hexp].
      apply andb_true_iff in Hunused. destruct Hunused as [Href Hcase].
      apply negb_true_iff in Href, Hcase, Hexp.
      apply mem_not_In in Href, Hcase.
      exists t, uv. auto 7.
    + intros (t & uv & Ht & Huv & -> & Href & Hcase & Hexp).
      exists (DType t). split; [assumption|].
      unfold typeUnusedValueConstructors. apply in_map. apply filter_In.
      split; [assumption|]. unfold isUnusedValueConstructor.
      apply mem_not_In in Href, Hcase. now rewrite Href, Hcase, Hexp.
  - intros t uv Harg.
    unfold isUnusedValueConstructor, spec_isUnusedValueConstructor.
    assert (E : mem (uv_name uv) (matchedCtors m)
                = mem (uv_name uv) (caseMatchedCtors m)).
    { destruct (mem (uv_name uv) (caseMatchedCtors m)) eqn:Hcase.
      - apply mem_In. apply In_matchedCtors. right. now apply mem_In.
      - apply mem_not_In. rewrite In_matchedCtors.
        apply mem_not_In in Hcase. tauto. }
    now rewrite E.
Qed.

(** The pattern of a case branch is a use: with the match of "unused and not
    exposed" moved to a case branch, [Bar] is not reported. *)
Lemma case_matched_constructor_is_not_reported :
  diagnosticsWithCode "unused_value_constructor"
    ElmTests.matched_in_case_branch
  = [].
Proof. reflexivity. Qed.

(** C2 fails on the case "unused and not exposed" of the test-suite: the
    constructor [Bar] is matched by the argument pattern of [foo], and by no
    other pattern, so the rule as the spec words it does not report it; the
    engine reports it, as the test expects. *)
Lemma matched_constructor_is_reported :
  let m := ElmTests.unused_and_not_exposed in
  let t := mkType "Foo" [mkVariant "Bar" (ElmTests.rng 3 11 3 18)
                           [TRef "Int" []]] in
  let uv := mkVariant "Bar" (ElmTests.rng 3 11 3 18) [TRef "Int" []] in
  In (DType t) (declarations m) /\ In uv (t_variants t)
  /\ In "Bar" (matchedCtors m)
  /\ spec_isUnusedValueConstructor m t uv = false
  /\ diagnosticsWithCode "unused_value_constructor" m
     = [ mkDiagnostic "unused_value_constructor"
           "Value constructor `Bar` is not used." "Elm" Warning
           (ElmTests.rng 3 11 3 18) [Unnecessary] ].
Proof.
  simpl. repeat split; auto.
Qed.

(** ** [map_nothing_to_nothing] *)

Lemma mapsNothingToNothing_spec (b : CaseBranch Expr) :
  mapsNothingToNothing b = true <->
  cb_pattern b = PUnion "Nothing" [] /\ cb_expr b = ECtor "Nothing".
Proof.
  unfold mapsNothingToNothing, isNothingPattern, isNothingExpr.
  rewrite andb_true_iff. split.
  - intros [Hp He].
    destruct (cb_pattern b) as [| | |c args| |]; try discriminate.
    destruct args; [|discriminate].
    destruct (cb_expr b) as [|c'| | | | |]; try discriminate.
    apply String.eqb_eq in Hp, He. now subst.
  - intros [-> ->]. split; reflexivity.
Qed.

(** What an expression contributes comes from a case branch inside it. *)
Lemma exprMapNothingToNothing_sound e :
  forall d,
    In d (exprMapNothingToNothing e) ->
    exists s bs b,
      In (ECase s bs) (subexpressions e) /\ In b bs
      /\ mapsNothingToNothing b = true
      /\ d = mapNothingToNothingDiagnostic (cb_range b).
Proof.
  induction e as [n|n|txt|e IH|f IHf args IHargs|l IHl op r IHr|s IHs bs IHbs];
    intros d Hd; simpl in Hd; try contradiction.
  - destruct (IH d Hd) as (s & bs & b & Hsub & Hrest).
    exists s, bs, b. split; [|assumption]. simpl. now right.
  - apply in_app_or in Hd. destruct Hd as [Hd|Hd].
    + destruct (IHf d Hd) as (s & bs & b & Hsub & Hrest).
      exists s, bs, b. split; [|assumption].
      simpl. right. apply in_or_app. now left.
    + apply in_flat_map in Hd. destruct Hd as (a & Ha & Hd).
      assert (Hex : exists s bs b,
                 In (ECase s bs) (subexpressions a) /\ In b bs
                 /\ mapsNothingToNothing b = true
                 /\ d = mapNothingToNothingDiagnostic (cb_range b)).
      { clear -IHargs Ha Hd.
        induction IHargs as [|a' Pa args _ IHrec]; [contradiction|].
        destruct Ha as [->|Ha]; [now apply Pa | now apply IHrec]. }
      destruct Hex as (s & bs & b & Hsub & Hrest).
      exists s, bs, b. split; [|assumption].
      simpl. right. apply in_or_app. right.
      apply in_flat_map. now exists a.
  - apply in_app_or in Hd. destruct Hd as [Hd|Hd].
    + destruct (IHl d Hd) as (s & bs & b & Hsub & Hrest).
      exists s, bs, b. split; [|assumption].
      simpl. right. apply in_or_app. now left.
    + destruct (IHr d Hd) as (s & bs & b & Hsub & Hrest).
      exists s, bs, b. split; [|assumption].
      simpl. right. apply in_or_app. now right.
  - apply in_app_or in Hd. destruct Hd as [Hd|Hd].
    + destruct (IHs d Hd) as (s' & bs' & b & Hsub & Hrest).
      exists s', bs', b. split; [|assumption].
      simpl. right. apply in_or_app. now left.
    + apply in_flat_map in Hd. destruct Hd as (b & Hb & Hd).
      apply in_app_or in Hd. destruct Hd as [Hd|Hd].
      * destruct (mapsNothingToNothing b) eqn:Hmaps; [|contradiction].
        destruct Hd as [<-|[]].
        exists s, bs, b. split; [now left | auto].
      * assert (Hex : exists s' bs' b',
                   In (ECase s' bs') (subexpressions (cb_expr b)) /\ In b' bs'
                   /\ mapsNothingToNothing b' = true
                   /\ d = mapNothingToNothingDiagnostic (cb_range b')).
        { clear -IHbs Hb Hd.
          induction IHbs as [|b0 Pb bs _ IHrec]; [contradiction|].
          destruct Hb as [->|Hb]; [|now apply IHrec].
          destruct Pb as [pat body Hbody rg]. simpl in *. now apply Hbody. }
        destruct Hex as (s' & bs' & b' & Hsub & Hrest).
        exists s', bs', b'. split; [|assumption].
        simpl. right. apply in_or_app. right.
        apply in_flat_map. now exists b.
Qed.

(** What a subexpression contributes, the expression contributes. *)
Lemma exprMapNothingToNothing_sub e :
  forall e1 d,
    In e1 (subexpressions e) -> In d (exprMapNothingToNothing e1) ->
    In d (exprMapNothingToNothing e).
Proof.
  induction e as [n|n|txt|e IH|f IHf args IHargs|l IHl op r IHr|s IHs bs IHbs];
    intros e1 d H1 Hd; simpl in H1;
    (destruct H1 as [<-|H1]; [exact Hd|]); try contradiction; simpl.
  - now apply (IH e1).
  - apply in_app_or in H1. apply in_or_app.
    destruct H1 as [H1|H1]; [left; now apply (IHf e1)|right].
    apply in_flat_map in H1. destruct H1 as (a & Ha & H1).
    apply in_flat_map. exists a. split; [assumption|].
    clear -IHargs Ha H1 Hd.
    induction IHargs as [|a' Pa args _ IHrec]; [contradiction|].
    destruct Ha as [->|Ha]; [now apply (Pa e1) | now apply IHrec].
  - apply in_app_or in H1. apply in_or_app.
    destruct H1 as [H1|H1]; [left; now apply (IHl e1) | right; now apply (IHr e1)].
  - apply in_app_or in H1. apply in_or_app.
    destruct H1 as [H1|H1]; [left; now apply (IHs e1)|right].
    apply in_flat_map in H1. destruct H1 as (b & Hb & H1).
    apply in_flat_map. exists b. split; [assumption|].
    apply in_or_app. right.
    clear -IHbs Hb H1 Hd.
    induction IHbs as [|b' Pb bs _ IHrec]; [contradiction|].
    destruct Hb as [->|Hb]; [|now apply IHrec].
    destruct Pb as [pat body Hbody rg]. simpl in *. now apply (Hbody e1).
Qed.

(** C9. The diagnostics with the code [map_nothing_to_nothing] are exactly
    one warning per case branch, anywhere in the module, whose pattern is
    [Nothing] and whose expression is [Nothing], with the range of that
    branch. *)
Theorem map_nothing_to_nothing_exact (m : Module_) (d : Diagnostic) :
  In d (diagnosticsWithCode "map_nothing_to_nothing" m) <->
  exists s branches b,
    In (ECase s branches) (moduleExpressions m) /\ In b branches
    /\ cb_pattern b = PUnion "Nothing" [] /\ cb_expr b = ECtor "Nothing"
    /\ d = mkDiagnostic "map_nothing_to_nothing"
             "`Nothing` mapped to `Nothing` in case expression. Use Maybe.map or Maybe.andThen instead."
             "Elm" Warning (cb_range b) [].
Proof.
  rewrite withCode_mapNothingToNothing.
  unfold getMapNothingToNothingDiagnostics, moduleExpressions.
  rewrite in_flat_map. split.
  - intros (e & He & Hd). apply exprMapNothingToNothing_sound in Hd.
    destruct Hd as (s & bs & b & Hsub & Hb & Hmaps & ->).
    apply mapsNothingToNothing_spec in Hmaps. destruct Hmaps as [Hp Hx].
    exists s, bs, b. repeat split; try assumption.
    apply in_flat_map. now exists e.
  - intros (s & bs & b & Hsub & Hb & Hp & Hx & ->).
    apply in_flat_map in Hsub. destruct Hsub as (e & He & Hsub).
    exists e. split; [assumption|].
    apply (exprMapNothingToNothing_sub e (ECase s bs)); [assumption|].
    simpl. apply in_or_app. right. apply in_flat_map. exists b.
    split; [assumption|]. apply in_or_app. left.
    assert (Hmaps : mapsNothingToNothing b = true)
      by (apply mapsNothingToNothing_spec; auto).
    rewrite Hmaps. now left.
Qed.

End ElmFacts.

(* ===================================================================== *)
(** * The modelled evaluators on the test-suite

    Each lemma is one [testDiagnostics] call of [elmDiagnostics.test.ts]:
    the source, the code, and the expected array. *)
(* ===================================================================== *)

Module TestSuite.

Import Elm ElmTests.

Lemma test_unused_function :
  diagnosticsWithCode "unused_top_level" unused_function
  = [ mkDiagnostic "unused_top_level" "Unused top level definition `baz`"
        "Elm" Warning (rng 5 0 5 3) [Unnecessary] ].
Proof. reflexivity. Qed.

Lemma test_only_used_in_self :
  diagnosticsWithCode "unused_top_level" only_used_in_self
  = [ mkDiagnostic "unused_top_level" "Unused top level definition `bar`"
        "Elm" Warning (rng 7 0 7 3) [Unnecessary] ].
Proof. reflexivity. Qed.

Lemma test_unused_but_exposed :
  diagnosticsWithCode "unused_value_constructor" unused_but_exposed = [].
Proof. reflexivity. Qed.

Lemma test_used_and_not_exposed :
  diagnosticsWithCode "unused_value_constructor" used_and_not_exposed = [].
Proof. reflexivity. Qed.

Lemma test_unused_and_not_exposed :
  diagnosticsWithCode "unused_value_constructor" unused_and_not_exposed
  = [ mkDiagnostic "unused_value_constructor"
        "Value constructor `Bar` is not used." "Elm" Warning
        (rng 3 11 3 18) [Unnecessary] ].
Proof. reflexivity. Qed.

Lemma test_used_value_constructor :
  diagnosticsWithCode "unused_value_constructor" used_value_constructor = [].
Proof. reflexivity. Qed.

Lemma test_unused_value_constructor_not_exposed :
  diagnosticsWithCode "unused_value_constructor"
    unused_value_constructor_not_exposed
  = [ mkDiagnostic "unused_value_constructor"
        "Value constructor `Thing` is not used." "Elm" Warning
        (rng 3 12 3 17) [Unnecessary];
      mkDiagnostic "unused_value_constructor"
        "Value constructor `Other` is not used." "Elm" Warning
        (rng 3 20 3 25) [Unnecessary] ].
Proof. reflexivity. Qed.

Lemma test_exposed_value_constructor :
  diagnosticsWithCode "unused_value_constructor" exposed_value_constructor
  = [].
Proof. reflexivity. Qed.

Lemma test_map_nothing_to_nothing :
  diagnosticsWithCode "map_nothing_to_nothing" map_nothing_to_nothing
  = [ mkDiagnostic "map_nothing_to_nothing"
        "`Nothing` mapped to `Nothing` in case expression. Use Maybe.map or Maybe.andThen instead."
        "Elm" Warning (rng 5 4 5 22) [] ].
Proof. reflexivity. Qed.

Lemma test_map_nothing_to_something :
  diagnosticsWithCode "map_nothing_to_nothing" map_nothing_to_something = [].
Proof. reflexivity. Qed.

Lemma test_map_something_to_nothing :
  diagnosticsWithCode "map_nothing_to_nothing" map_something_to_nothing = [].
Proof. reflexivity. Qed.

End TestSuite.

(* ===================================================================== *)
(** * The statements at concrete inputs *)
(* ===================================================================== *)

Module Instances.

Import Runs.

Lemma wf_burst_second : JsMap.wf (currentDiagnostics burst_second).
Proof.
  unfold JsMap.wf. simpl. constructor; [intros [] | constructor].
Defined.

(** C3 on the idle provider: [Main.elm] is not tracked. *)
Lemma updateDiagnostics_untracked_witness :
  JsMap.get mainUri (currentDiagnostics idle) = None
  /\ (updateDiagnostics mainUri ElmLS [] idle = idle
      /\ forall ds,
           JsMap.has mainUri
             (currentDiagnostics (updateDiagnostics mainUri ElmLS ds idle))
           = true
           <-> ds <> []).
Proof.
  split; [reflexivity|].
  apply (ProviderFacts.updateDiagnostics_untracked idle mainUri ElmLS).
  reflexivity.
Defined.

(** C4 on a provider that tracks [Main.elm], deleting [Dep.elm], which it
    does not track. *)
Lemma deleteDiagnostics_publishes_empty_witness :
  JsMap.wf (currentDiagnostics burst_second)
  /\ JsMap.get depUri (currentDiagnostics (deleteDiagnostics depUri burst_second))
     = None
  /\ sentDiagnostics (deleteDiagnostics depUri burst_second)
     = sentDiagnostics burst_second ++ [mkPublish depUri []].
Proof.
  split; [exact wf_burst_second|].
  pose proof (ProviderFacts.deleteDiagnostics_publishes_empty burst_second
                depUri wf_burst_second) as H.
  simpl in H. destruct H as (H1 & _ & H3 & _).
  split; [exact H1 | exact H3].
Defined.

(** C5 on a provider that holds a non-empty ElmLS list for [Main.elm], with
    results that do not mention the file. *)
Lemma resetDiagnostics_synthesizes_witness :
  JsMap.wf (currentDiagnostics burst_second)
  /\ JsMap.get mainUri (resetDiagnostics [(depUri, [d2])] ElmLS burst_second)
     = Some [].
Proof.
  split; [exact wf_burst_second|].
  rewrite (ProviderFacts.resetDiagnostics_synthesizes burst_second ElmLS
             [(depUri, [d2])] mainUri wf_burst_second).
  reflexivity.
Defined.

(** C6 fails here: [Dep.elm] is tracked and its tree is in the forest, not
    writeable;
    the rule engine has a finding for it; after the configuration change
    that leaves the rule engine on, its ElmLS list is still the empty one. *)
Lemma tracked_dependency_is_not_relinted :
  let p := depLintOff in
  let p' := onDidChangeConfiguration lintFinds lintOn p in
  JsMap.has depUri (currentDiagnostics p) = true
  /\ In depWorkspace (workspaces p)
  /\ JsMap.get depUri (treeMap depWorkspace) = Some depContainer
  /\ lintFinds (tree depContainer) depUri depWorkspace = [d1]
  /\ storedForKind ElmLS depUri p' = []
  /\ storedForKind ElmLS depUri p'
     <> lintFinds (tree depContainer) depUri depWorkspace.
Proof.
  simpl. repeat split; [now left | discriminate].
Qed.

(** C7 on a file that no workspace contains. *)
Lemma onTreeChange_lookup_failure_witness :
  inNoWorkspace (tc_uri depContainer)
  = inl (NoWorkspaceContainsError (depUri ++ " is in no workspace"))
  /\ exists p',
       onTreeChange lintFinds noTypeErrors inNoWorkspace depContainer depStart
       = Returned p'
       /\ consoleInfo p' = consoleInfo depStart
                           ++ [(depUri ++ " is in no workspace")%string]
       /\ currentDiagnostics p' = currentDiagnostics depStart
       /\ timers p' = timers depStart
       /\ sentDiagnostics p' = sentDiagnostics depStart.
Proof.
  split; [reflexivity|].
  apply (@ListenerFacts.onTreeChange_lookup_failure unit lintFinds noTypeErrors
           inNoWorkspace depContainer depStart
           (NoWorkspaceContainsError (depUri ++ " is in no workspace"))).
  reflexivity.
Defined.

(** C8 on the module of "only used in self": [bar = bar + foo]. *)
Lemma self_reference_is_unused_witness :
  In (mkDiagnostic "unused_top_level" "Unused top level definition `bar`"
        "Elm" Warning (ElmTests.rng 7 0 7 3) [Unnecessary])
    (Elm.diagnosticsWithCode "unused_top_level" ElmTests.only_used_in_self).
Proof.
  apply (@ElmFacts.self_reference_is_unused ElmTests.only_used_in_self
           (Elm.mkValue "bar" (ElmTests.rng 7 0 7 3) None []
              (Elm.EBinOp (Elm.EValue "bar") "+" (Elm.EValue "foo")))
           [Elm.ExposedValue "foo"; Elm.ExposedType "Some" true]).
  - simpl. auto.
  - reflexivity.
  - simpl. intros [H|[H|[]]]; discriminate.
  - intros d nd Hd Hne Hnd. simpl in Hd.
    destruct Hd as [<-|[<-|[<-|[]]]].
    + simpl in Hnd. destruct Hnd as [<-|[<-|[]]]; simpl; tauto.
    + simpl in Hnd. destruct Hnd as [<-|[]]. simpl. tauto.
    + congruence.
Defined.

End Instances.

(* ===================================================================== *)
(** * The aggregator: more of what the provider does *)
(* ===================================================================== *)

Module ProviderMore.

Import JsMapFacts ProviderFacts.

Section Facts.
Context {Tree : Type}.
Variable lint : Tree -> string -> IElmWorkspace Tree -> list Diagnostic.
Variable typeInference :
  ITreeContainer Tree -> IElmWorkspace Tree -> list Diagnostic.
Variable getElmWorkspaceFor : string -> JsError + IElmWorkspace Tree.
Implicit Types (p : DiagnosticsProvider Tree) (uri : string)
  (kind : DiagnosticKind) (ds : list Diagnostic).

Lemma fold_left_preserves_In {A B : Type} (P : A -> Prop) (f : A -> B -> A)
  (l : list B) :
  (forall a b, In b l -> P a -> P (f a b)) ->
  forall a, P a -> P (fold_left f l a).
Proof.
  induction l as [|b l IH]; intros Hstep a Ha; simpl; [assumption|].
  apply IH.
  - intros a' b' Hb'. apply Hstep. now right.
  - apply Hstep; [now left | assumption].
Qed.

(** ** Reading after an update *)

(** X1. After [updateDiagnostics] the list stored for the updated file under
    the updated kind is the delivered list, and the list stored for any
    other file, or under any other kind, is as before. *)
Theorem updateDiagnostics_stores p uri kind ds :
  let p' := updateDiagnostics uri kind ds p in
  storedForKind kind uri p' = ds
  /\ (forall k u, u <> uri \/ k <> kind ->
        storedForKind k u p' = storedForKind k u p).
Proof.
  simpl. split.
  - apply stored_update_same.
  - intros k u [Hu|Hk].
    + apply stored_update_other_uri. congruence.
    + apply stored_update_other_kind. congruence.
Qed.

(** X2. [updateDiagnostics] never removes a record and never moves one: the
    URIs the map holds afterwards are those it held, in the same order, with
    the updated URI appended when it was not tracked and the delivered list
    is not empty. *)
Theorem updateDiagnostics_keys p uri kind ds :
  JsMap.keys (currentDiagnostics (updateDiagnostics uri kind ds p))
  = JsMap.keys (currentDiagnostics p)
    ++ (if JsMap.has uri (currentDiagnostics p) then []
        else match ds with [] => [] | _ :: _ => [uri] end).
Proof.
  rewrite currentDiagnostics_updateDiagnostics. unfold JsMap.has.
  destruct (JsMap.get uri (currentDiagnostics p)) as [fd|] eqn:E.
  - rewrite app_nil_r. apply keys_set_tracked. congruence.
  - destruct ds as [|d ds].
    + now rewrite app_nil_r.
    + now apply keys_set_untracked.
Qed.

(** ** Watched files *)

Lemma deletes_spec (uris : list string) :
  forall p,
  JsMap.wf (currentDiagnostics p) ->
  let p' := fold_left (fun acc uri => deleteDiagnostics uri acc) uris p in
  JsMap.wf (currentDiagnostics p')
  /\ sentDiagnostics p' = sentDiagnostics p ++ map (fun u => mkPublish u []) uris
  /\ timers p' = timers p
  /\ (forall u, In u uris -> JsMap.get u (currentDiagnostics p') = None)
  /\ (forall u, ~ In u uris ->
        JsMap.get u (currentDiagnostics p')
        = JsMap.get u (currentDiagnostics p)).
Proof.
  clear lint typeInference getElmWorkspaceFor.
  induction uris as [|a uris IH]; intros p Hwf; simpl.
  - rewrite app_nil_r. repeat split; tauto.
  - assert (Hwf' : JsMap.wf (currentDiagnostics (deleteDiagnostics a p)))
      by (simpl; now apply wf_delete).
    destruct (IH (deleteDiagnostics a p) Hwf') as (W & S & T & Hin & Hout).
    simpl in S, T. split; [exact W|]. split; [|split; [exact T|split]].
    + rewrite S, <- app_assoc. reflexivity.
    + intros u [->|Hu].
      * destruct (in_dec string_dec u uris) as [Hu|Hu]; [now apply Hin|].
        rewrite (Hout u Hu). simpl. now apply get_delete_eq.
      * now apply Hin.
    + intros u Hu. rewrite Hout by tauto. simpl.
      apply get_delete_ne. tauto.
Qed.

(** X3. Of a notification of watched files only the deletions count: the
    empty list is sent at once for every deleted URI, in the order of the
    notification, the deleted URIs are no longer tracked, every other record
    is kept, and no pending timer is cleared. *)
Theorem onDidChangeWatchedFiles_deletes (changes : list FileEvent) p :
  JsMap.wf (currentDiagnostics p) ->
  let deleted := map fe_uri (filter isDeleted changes) in
  let p' := onDidChangeWatchedFiles changes p in
  sentDiagnostics p' = sentDiagnostics p ++ map (fun u => mkPublish u []) deleted
  /\ (forall u, In u deleted -> JsMap.get u (currentDiagnostics p') = None)
  /\ (forall u, ~ In u deleted ->
        JsMap.get u (currentDiagnostics p')
        = JsMap.get u (currentDiagnostics p))
  /\ timers p' = timers p.
Proof.
  intros Hwf. unfold onDidChangeWatchedFiles.
  destruct (deletes_spec (map fe_uri (filter isDeleted changes)) p Hwf)
    as (_ & S & T & Hin & Hout).
  simpl. auto.
Qed.

(** ** Results of a whole source *)

Lemma set_untracked_app {V : Type} (m : JsMap.t V) k (v : V) :
  JsMap.get k m = None -> JsMap.set k v m = m ++ [(k, v)].
Proof.
  induction m as [|[k' v'] m IH]; simpl; [reflexivity|].
  destruct (String.eqb k k'); [discriminate|].
  intros H. now rewrite IH.
Qed.

(** X4. [resetDiagnostics] keeps the results it is given in place and
    appends the entries it synthesizes after them: each added entry holds the
    empty list, for a tracked URI that the results did not mention. *)
Theorem resetDiagnostics_appends p kind
  (newResults : JsMap.t (list Diagnostic)) :
  exists added,
    resetDiagnostics newResults kind p
    = newResults ++ map (fun u => (u, @nil Diagnostic)) added
    /\ forall u, In u added ->
         In u (JsMap.keys (currentDiagnostics p))
         /\ JsMap.get u newResults = None.
Proof.
  clear lint typeInference getElmWorkspaceFor.
  unfold resetDiagnostics, JsMap.forEach.
  revert newResults.
  induction (currentDiagnostics p) as [|[k fd] m IH]; intros acc; simpl.
  - exists []. split; [now rewrite app_nil_r | intros u []].
  - assert (Hhas : JsMap.has k acc
                   = match JsMap.get k acc with
                     | Some _ => true
                     | None => false
                     end) by reflexivity.
    rewrite Hhas. clear Hhas.
    destruct (JsMap.get k acc) as [l|] eqn:Hacc; simpl.
    + destruct (IH acc) as (added & E & Hadded).
      exists added. split; [exact E|]. intros u Hu.
      destruct (Hadded u Hu). tauto.
    + destruct (Nat.ltb 0 _).
      * destruct (IH (JsMap.set k [] acc)) as (added & E & Hadded).
        exists (k :: added). split.
        -- rewrite E, set_untracked_app by assumption.
           rewrite <- app_assoc. reflexivity.
        -- intros u [<-|Hu]; [tauto|].
           destruct (Hadded u Hu) as [Hk Hn]. split; [tauto|].
           destruct (String.eqb_spec k u) as [->|Hne].
           ++ now rewrite get_set_eq in Hn.
           ++ now rewrite get_set_ne in Hn.
      * destruct (IH acc) as (added & E & Hadded).
        exists added. split; [exact E|]. intros u Hu.
        destruct (Hadded u Hu). tauto.
Qed.

Lemma reset_entries_stable kind (entries : JsMap.t FileDiagnostics) :
  forall acc : JsMap.t (list Diagnostic),
  (forall k fd, In (k, fd) entries ->
     Nat.ltb 0 (length (FileDiagnosticsOps.getForKind kind fd)) = true ->
     JsMap.has k acc = true) ->
  JsMap.forEach
    (fun fileDiagnostics diagnosticsUri acc =>
       if negb (JsMap.has diagnosticsUri acc)
          && Nat.ltb 0 (length (FileDiagnosticsOps.getForKind kind
                                  fileDiagnostics))
       then JsMap.set diagnosticsUri [] acc
       else acc)
    entries acc = acc.
Proof.
  unfold JsMap.forEach.
  induction entries as [|[k fd] entries IH]; intros acc Hacc; simpl.
  - reflexivity.
  - destruct (Nat.ltb 0 (length (FileDiagnosticsOps.getForKind kind fd)))
      eqn:Hlen.
    + rewrite (Hacc k fd (or_introl eq_refl) Hlen). simpl.
      apply IH. intros k' fd' Hin. apply Hacc. now right.
    + rewrite andb_false_r. apply IH. intros k' fd' Hin. apply Hacc.
      now right.
Qed.

(** X5. [resetDiagnostics] is idempotent: a second pass over results that
    were reset for the same kind adds nothing. *)
Theorem resetDiagnostics_idempotent p kind
  (newResults : JsMap.t (list Diagnostic)) :
  resetDiagnostics (resetDiagnostics newResults kind p) kind p
  = resetDiagnostics newResults kind p.
Proof.
  unfold resetDiagnostics at 1. apply reset_entries_stable.
  intros k fd Hin Hlen. apply has_true_get.
  unfold resetDiagnostics. rewrite get_reset_entries.
  destruct (JsMap.get k newResults); [discriminate|].
  assert (E : existsb
                (fun kv =>
                   String.eqb (fst kv) k
                   && Nat.ltb 0 (length (FileDiagnosticsOps.getForKind kind
                                           (snd kv))))
                (currentDiagnostics p) = true).
  { apply existsb_exists. exists (k, fd). split; [assumption|].
    simpl. now rewrite String.eqb_refl, Hlen. }
  rewrite E. discriminate.
Qed.

Lemma wf_resetDiagnostics p kind (newResults : JsMap.t (list Diagnostic)) :
  JsMap.wf newResults -> JsMap.wf (resetDiagnostics newResults kind p).
Proof.
  unfold resetDiagnostics, JsMap.forEach. apply fold_left_preserves_In.
  intros acc kv _ Hacc. destruct (negb _ && _); [now apply wf_set | exact Hacc].
Qed.

(** A whole result set of one source, reset and applied: afterwards every
    file holds under the kind what the result set says, and the empty list
    when the result set does not mention it. *)
Lemma bulk_replace kind (results : JsMap.t (list Diagnostic)) p :
  JsMap.wf (currentDiagnostics p) -> JsMap.wf results ->
  let p' := JsMap.forEach
              (fun ds uri acc => updateDiagnostics uri kind ds acc)
              (resetDiagnostics results kind p) p in
  (forall u,
     storedForKind kind u p'
     = match JsMap.get u results with Some ds => ds | None => [] end)
  /\ (forall u k, k <> kind -> storedForKind k u p' = storedForKind k u p).
Proof.
  intros Hwf Hres.
  set (jobs := resetDiagnostics results kind p).
  change (JsMap.forEach
            (fun ds uri acc => updateDiagnostics uri kind ds acc) jobs p)
    with (fold_left (fun acc job =>
                       updateDiagnostics (fst job) kind (snd job) acc)
            jobs p).
  simpl. split.
  - intros u.
    assert (Hjobs : JsMap.wf jobs) by now apply wf_resetDiagnostics.
    assert (Hget : JsMap.get u jobs
                   = match JsMap.get u results with
                     | Some l => Some l
                     | None =>
                         if Nat.ltb 0 (length (storedForKind kind u p))
                         then Some [] else None
                     end).
    { unfold jobs, resetDiagnostics. rewrite get_reset_entries.
      now rewrite holds_non_empty_stored. }
    destruct (updates_stored kind jobs p u) as [Hin Hout]. simpl in Hin, Hout.
    destruct (JsMap.get u jobs) as [l|] eqn:Hu.
    + destruct Hin as (ds & Hds & ->).
      { apply get_Some_In in Hu. change u with (fst (u, l)). now apply in_map. }
      apply In_get_Some in Hds; [|exact Hjobs]. rewrite Hu in Hds.
      injection Hds as <-.
      destruct (JsMap.get u results); [congruence|].
      destruct (Nat.ltb 0 _); congruence.
    + assert (Hnot : ~ In u (map fst jobs)) by now apply get_None_keys.
      unfold storedForKind at 1. rewrite (Hout Hnot).
      fold (storedForKind kind u p).
      destruct (JsMap.get u results); [discriminate|].
      destruct (storedForKind kind u p); [reflexivity | discriminate].
  - intros u k Hk. apply updates_other_kind. congruence.
Qed.

(** X6. When elm-analyse delivers a result set, every file's ElmAnalyse list
    becomes what the result set holds for it, and the empty list for a file
    the result set does not mention; the lists of the other kinds are
    kept. *)
Theorem newElmAnalyseDiagnostics_replaces
  (diagnostics : JsMap.t (list Diagnostic)) p :
  JsMap.wf (currentDiagnostics p) -> JsMap.wf diagnostics ->
  let p' := newElmAnalyseDiagnostics diagnostics p in
  (forall u,
     storedForKind ElmAnalyse u p'
     = match JsMap.get u diagnostics with Some ds => ds | None => [] end)
  /\ (forall u k, k <> ElmAnalyse ->
        storedForKind k u p' = storedForKind k u p).
Proof.
  intros Hwf Hres. apply (@bulk_replace ElmAnalyse diagnostics p Hwf Hres).
Qed.

(** X7. On an open or save, once the build has resolved, every file's
    ElmMake list becomes what the build reported for it, and the empty list
    for a file the build did not report; the lists of the other kinds are
    kept. *)
Theorem getDiagnostics_applies_build (document : TextDocument)
  (trigger : ElmAnalyseTrigger) (elmMakeResult : JsMap.t (list Diagnostic)) p :
  JsMap.wf (currentDiagnostics p) -> JsMap.wf elmMakeResult ->
  let p' := getDiagnostics document true trigger elmMakeResult p in
  (forall u,
     storedForKind ElmMake u p'
     = match JsMap.get u elmMakeResult with Some ds => ds | None => [] end)
  /\ (forall u k, k <> ElmMake ->
        storedForKind k u p' = storedForKind k u p).
Proof.
  intros Hwf Hres.
  pose proof (@bulk_replace ElmMake elmMakeResult
                (console_info
                   "Diagnostics were requested due to a file open or save" p)
                Hwf Hres) as H.
  simpl in H. unfold getDiagnostics. simpl.
  match goal with
  | |- context [if ?c then elmAnalyse_updateFile ?u ?t ?q else ?q] =>
      destruct c
  end; exact H.
Qed.

(** ** Repeated updates *)

Lemma update_stored_is_silent p uri kind ds :
  storedForKind kind uri p = ds -> updateDiagnostics uri kind ds p = p.
Proof.
  unfold storedForKind.
  destruct (JsMap.get uri (currentDiagnostics p)) as [fd|] eqn:E.
  - intros <-. now apply updateDiagnostics_repeated.
  - intros <-. unfold updateDiagnostics. rewrite E. simpl. now destruct p.
Qed.

(** X8. An update that delivers the list already stored for the file under
    the kind (the empty list for a file that is not tracked) leaves the
    provider as it is: nothing is stored, nothing is scheduled, nothing is
    sent. *)
Theorem updateDiagnostics_same_list_is_silent p uri kind ds :
  storedForKind kind uri p = ds ->
  updateDiagnostics uri kind ds p = p
  /\ forall ms,
       elapse ms (updateDiagnostics uri kind ds p) = elapse ms p.
Proof.
  intros H. rewrite (update_stored_is_silent p uri kind H). auto.
Qed.

(** ** Tree changes that find their workspace *)

(** X9. When the workspace matcher finds the workspace of the changed tree,
    the listener returns normally; the file's TypeInference list is the
    fresh result; its ElmLS list is the fresh result of the rule engine when
    the rule engine is enabled and is left as it was otherwise; the ElmMake
    and ElmAnalyse lists and every other file's record are kept; nothing is
    sent at once.  Whether the tree is writeable plays no part. *)
Theorem onTreeChange_recomputes (treeContainer : ITreeContainer Tree) p
  (workspace : IElmWorkspace Tree) :
  getElmWorkspaceFor (tc_uri treeContainer) = inr workspace ->
  exists p',
    onTreeChange lint typeInference getElmWorkspaceFor treeContainer p
    = Returned p'
    /\ storedForKind TypeInference (tc_uri treeContainer) p'
       = typeInference treeContainer workspace
    /\ storedForKind ElmLS (tc_uri treeContainer) p'
       = (if disableElmLSDiagnostics (clientSettings p)
          then storedForKind ElmLS (tc_uri treeContainer) p
          else lint (tree treeContainer) (tc_uri treeContainer) workspace)
    /\ (forall u,
          storedForKind ElmMake u p' = storedForKind ElmMake u p
          /\ storedForKind ElmAnalyse u p' = storedForKind ElmAnalyse u p)
    /\ (forall u, u <> tc_uri treeContainer ->
          JsMap.get u (currentDiagnostics p')
          = JsMap.get u (currentDiagnostics p))
    /\ sentDiagnostics p' = sentDiagnostics p
    /\ consoleInfo p' = consoleInfo p.
Proof.
  intros Hfound. unfold onTreeChange. rewrite Hfound.
  set (uri := tc_uri treeContainer).
  set (p1 := updateDiagnostics uri TypeInference
               (typeInference treeContainer workspace) p).
  pose proof (updateDiagnostics_frame p uri TypeInference
                (typeInference treeContainer workspace)) as F1.
  simpl in F1. fold p1 in F1.
  destruct F1 as (Fs & _ & _ & _ & _ & Fsent & Fcon & _).
  rewrite Fs.
  destruct (disableElmLSDiagnostics (clientSettings p)); simpl.
  - exists p1. split; [reflexivity|]. repeat split.
    + apply stored_update_same.
    + apply stored_update_other_kind. discriminate.
    + apply stored_update_other_kind. discriminate.
    + apply stored_update_other_kind. discriminate.
    + intros u Hu. apply get_updateDiagnostics_ne. congruence.
    + exact Fsent.
    + exact Fcon.
  - set (found := lint (tree treeContainer) uri workspace).
    exists (updateDiagnostics uri ElmLS found p1).
    pose proof (updateDiagnostics_frame p1 uri ElmLS found) as F2.
    simpl in F2. destruct F2 as (_ & _ & _ & _ & _ & Fsent2 & Fcon2 & _).
    split; [reflexivity|]. repeat split.
    + rewrite stored_update_other_kind by discriminate.
      apply stored_update_same.
    + apply stored_update_same.
    + rewrite stored_update_other_kind by discriminate.
      apply stored_update_other_kind. discriminate.
    + rewrite stored_update_other_kind by discriminate.
      apply stored_update_other_kind. discriminate.
    + intros u Hu. rewrite get_updateDiagnostics_ne by congruence.
      apply get_updateDiagnostics_ne. congruence.
    + congruence.
    + congruence.
Qed.

(** ** Configuration changes and what follows them *)

Lemma lint_cleared (settings : IClientSettings) p :
  disableElmLSDiagnostics settings = true ->
  let p' := onDidChangeConfiguration lint settings p in
  clientSettings p' = settings
  /\ forall u, storedForKind ElmLS u p' = [].
Proof.
  intros Hoff. unfold onDidChangeConfiguration. simpl. rewrite Hoff.
  rewrite ListenerFacts.clear_all_as_jobs.
  set (jobs := map (fun kv : string * FileDiagnostics =>
                      (fst kv, @nil Diagnostic)) (currentDiagnostics p)).
  split.
  - now destruct (updates_frame ElmLS jobs (with_clientSettings settings p))
      as (-> & _).
  - intros u.
    destruct (updates_stored ElmLS jobs (with_clientSettings settings p) u)
      as [Hin Hout].
    simpl in Hin, Hout.
    destruct (in_dec string_dec u (map fst jobs)) as [Hu|Hu].
    + destruct (Hin Hu) as (ds & Hds & ->).
      apply in_map_iff in Hds. destruct Hds as (kv & [= _ <-] & _).
      reflexivity.
    + unfold storedForKind. rewrite (Hout Hu). simpl.
      unfold jobs in Hu. rewrite map_map in Hu. simpl in Hu.
      apply get_None_keys in Hu. unfold JsMap.keys in Hu. now rewrite Hu.
Qed.

(** X10. Once a configuration change has switched the rule engine off, a
    tree change does not bring its diagnostics back: after the listener,
    whether it returns or throws, every file's ElmLS list is still empty. *)
Theorem lint_stays_off (settings : IClientSettings)
  (treeContainer : ITreeContainer Tree) p :
  disableElmLSDiagnostics settings = true ->
  forall u,
    storedForKind ElmLS u
      (afterOutcome
         (onTreeChange lint typeInference getElmWorkspaceFor treeContainer
            (onDidChangeConfiguration lint settings p)))
    = [].
Proof.
  intros Hoff u.
  destruct (lint_cleared settings p Hoff) as [Hset Hclear]. simpl in Hset, Hclear.
  unfold onTreeChange.
  destruct (getElmWorkspaceFor (tc_uri treeContainer)) as [[msg|name msg]|ws];
    simpl; try apply Hclear.
  pose proof (updateDiagnostics_frame (onDidChangeConfiguration lint settings p)
                (tc_uri treeContainer) TypeInference
                (typeInference treeContainer ws)) as F.
  simpl in F. destruct F as (Fs & _). rewrite Fs, Hset, Hoff. simpl.
  rewrite stored_update_other_kind by discriminate. apply Hclear.
Qed.

(** Switching the rule engine off a second time changes nothing: the second
    configuration change finds every ElmLS list empty, stores nothing and
    schedules nothing. *)
Lemma lint_off_twice (settings : IClientSettings) p :
  disableElmLSDiagnostics settings = true ->
  onDidChangeConfiguration lint settings
    (onDidChangeConfiguration lint settings p)
  = onDidChangeConfiguration lint settings p.
Proof.
  intros Hoff.
  destruct (lint_cleared settings p Hoff) as [Hset Hclear]. simpl in Hset, Hclear.
  set (q := onDidChangeConfiguration lint settings p) in *.
  unfold onDidChangeConfiguration at 1. simpl. rewrite Hoff.
  assert (Hq : with_clientSettings settings q = q).
  { destruct q; simpl in *. now rewrite Hset. }
  rewrite Hq. unfold JsMap.forEach.
  generalize (currentDiagnostics q) as entries.
  induction entries as [|[k fd] entries IH]; simpl; [reflexivity|].
  rewrite update_stored_is_silent by apply Hclear. exact IH.
Qed.

(** ** Publication *)

Lemma fires (ts : list Timer) :
  forall q : DiagnosticsProvider Tree,
  let q' := fold_left (fun acc t => sendDiagnostics (arg t) acc) ts q in
  sentDiagnostics q' = sentDiagnostics q ++ map (emission q) ts
  /\ currentDiagnostics q' = currentDiagnostics q
  /\ timers q' = timers q
  /\ clock q' = clock q
  /\ untouched q q'.
Proof.
  induction ts as [|t ts IH]; intros q; simpl.
  - rewrite app_nil_r. repeat split.
  - destruct (IH (sendDiagnostics (arg t) q)) as (S & C & T & K & U).
    simpl in S, C, T, K. rewrite S, C, T, K.
    split; [|repeat split; apply U].
    rewrite <- app_assoc. reflexivity.
Qed.

(** When time passes, every timer that is due makes one emission, in the
    order of the timers, carrying the merged list of that moment; the other
    timers stay pending and the map is not touched. *)
Lemma elapse_spec (ms : nat) p :
  let now := clock p + ms in
  let p' := elapse ms p in
  sentDiagnostics p'
  = sentDiagnostics p ++ map (emission p) (filter (isDue now) (timers p))
  /\ timers p' = filter (fun t => negb (isDue now t)) (timers p)
  /\ currentDiagnostics p' = currentDiagnostics p
  /\ clock p' = now
  /\ untouched p p'.
Proof.
  unfold elapse.
  destruct (fires (filter (isDue (clock p + ms)) (timers p))
              (with_timers
                 (filter (fun t => negb (isDue (clock p + ms) t)) (timers p))
                 (with_clock (clock p + ms) p)))
    as (S & C & T & K & U).
  simpl in *. repeat split; try assumption; apply U.
Qed.

(** What [updateDiagnostics] does to the timers: nothing, or it clears the
    timers of the debounced function it has just made and arms one for the
    URI, due 50 ms from now. *)
Lemma updateDiagnostics_arms p uri kind ds :
  let p' := updateDiagnostics uri kind ds p in
  timers p' = timers p
  \/ timers p'
     = filter (fun t => negb (Nat.eqb (owner t) (debouncedCount p))) (timers p)
       ++ [mkTimer (debouncedCount p) (clock p + 50) uri].
Proof.
  unfold updateDiagnostics, debounce, callDebounced.
  destruct (JsMap.get uri (currentDiagnostics p)) as [fd|].
  - destruct (FileDiagnosticsOps.update kind ds fd) as [fd' []]; simpl; auto.
  - destruct (Nat.ltb 0 (length ds)); simpl; auto.
Qed.

Lemma filter_all {A : Type} (f : A -> bool) (l : list A) :
  Forall (fun x => f x = true) l -> filter f l = l.
Proof.
  induction 1 as [|x l Hx _ IH]; simpl; [reflexivity|].
  now rewrite Hx, IH.
Qed.

Lemma filter_none {A : Type} (f : A -> bool) (l : list A) :
  Forall (fun x => f x = true) l -> filter (fun x => negb (f x)) l = [].
Proof.
  induction 1 as [|x l Hx _ IH]; simpl; [reflexivity|].
  now rewrite Hx.
Qed.

(** X11. An update that schedules a publish is published within the
    debounce delay: after 50 ms with no other event no timer is pending, the
    map is as the update left it, and the last emission is for the updated
    file and carries its merged list as the update left it. *)
Theorem scheduled_update_is_published p uri kind ds :
  timely p ->
  timers (updateDiagnostics uri kind ds p) <> timers p ->
  let p1 := updateDiagnostics uri kind ds p in
  let p2 := elapse 50 p1 in
  timers p2 = []
  /\ currentDiagnostics p2 = currentDiagnostics p1
  /\ exists earlier,
       sentDiagnostics p2
       = sentDiagnostics p ++ earlier ++ [mkPublish uri (mergedFor uri p1)].
Proof.
  intros Htimely Harmed. simpl.
  pose proof (updateDiagnostics_frame p uri kind ds) as F. simpl in F.
  destruct F as (_ & _ & _ & _ & Fclock & Fsent & _).
  destruct (updateDiagnostics_arms p uri kind ds) as [Hsame|Harm];
    [contradiction|].
  destruct (elapse_spec 50 (updateDiagnostics uri kind ds p))
    as (S & T & C & _).
  simpl in S, T, C.
  assert (Hdue : Forall (fun t => isDue (clock p + 50) t = true)
                   (timers (updateDiagnostics uri kind ds p))).
  { rewrite Harm. apply Forall_app. split.
    - apply Forall_forall. intros t Ht. apply filter_In in Ht.
      destruct Ht as [Ht _]. unfold timely in Htimely.
      rewrite Forall_forall in Htimely. unfold isDue.
      apply Nat.leb_le. now apply Htimely.
    - constructor; [|constructor]. unfold isDue. simpl. apply Nat.leb_refl. }
  rewrite Fclock in S, T.
  rewrite (filter_none _ Hdue) in T. rewrite (filter_all _ Hdue) in S.
  split; [exact T|]. split; [exact C|].
  rewrite S, Fsent, Harm, map_app. simpl.
  eexists. reflexivity.
Qed.

(** X12. A deletion clears no pending timer, and a timer that fires for the
    deleted file afterwards, before any new update of it, sends the empty
    list: whatever time passes after the deletion, every emission it brings
    for the deleted URI is empty. *)
Theorem deleted_file_is_published_empty p uri (ms : nat) :
  JsMap.wf (currentDiagnostics p) ->
  let q := deleteDiagnostics uri p in
  timers q = timers p
  /\ exists fired,
       sentDiagnostics (elapse ms q)
       = sentDiagnostics p ++ [mkPublish uri []] ++ fired
       /\ length fired = length (filter (isDue (clock p + ms)) (timers p))
       /\ forall e, In e fired -> pub_uri e = uri -> pub_diagnostics e = [].
Proof.
  intros Hwf. simpl. split; [reflexivity|].
  destruct (elapse_spec ms (deleteDiagnostics uri p)) as (S & _).
  simpl in S.
  exists (map (emission (deleteDiagnostics uri p))
            (filter (isDue (clock p + ms)) (timers p))).
  split; [|split].
  - rewrite S, <- app_assoc. reflexivity.
  - apply length_map.
  - intros e He Huri. apply in_map_iff in He. destruct He as (t & <- & _).
    simpl in *. unfold mergedFor. simpl. rewrite Huri.
    now rewrite get_delete_eq.
Qed.

(** ** What is fixed at construction *)

Lemma untouched_refl p : untouched p p.
Proof. repeat split. Qed.

Lemma untouched_trans p q r : untouched p q -> untouched q r -> untouched p r.
Proof. unfold untouched. intuition congruence. Qed.

Lemma untouched_updateDiagnostics p uri kind ds :
  untouched p (updateDiagnostics uri kind ds p).
Proof.
  clear lint typeInference getElmWorkspaceFor.
  pose proof (updateDiagnostics_frame p uri kind ds) as F. simpl in F.
  unfold untouched. tauto.
Qed.

Lemma untouched_fold {B : Type} (f : DiagnosticsProvider Tree -> B
                                     -> DiagnosticsProvider Tree)
  (l : list B) :
  (forall a b, untouched a (f a b)) ->
  forall p, untouched p (fold_left f l p).
Proof.
  intros Hstep p.
  apply (ListenerFacts.fold_left_preserves (untouched p)).
  - intros a b Ha. apply (untouched_trans Ha), Hstep.
  - apply untouched_refl.
Qed.

Lemma untouched_updates kind (jobs : JsMap.t (list Diagnostic)) p :
  untouched p
    (JsMap.forEach (fun ds uri acc => updateDiagnostics uri kind ds acc)
       jobs p).
Proof.
  unfold JsMap.forEach. apply untouched_fold.
  intros a b. apply untouched_updateDiagnostics.
Qed.

Lemma untouched_onDidChangeConfiguration (settings : IClientSettings) p :
  untouched p (onDidChangeConfiguration lint settings p).
Proof.
  unfold onDidChangeConfiguration. simpl.
  apply untouched_trans with (with_clientSettings settings p);
    [repeat split|].
  destruct (disableElmLSDiagnostics settings).
  - unfold JsMap.forEach. apply untouched_fold.
    intros a b. apply untouched_updateDiagnostics.
  - apply untouched_fold. intros a ws.
    unfold relintWorkspace, JsMap.forEach. apply untouched_fold.
    intros a' kv. unfold relintTreeContainer.
    destruct (writeable (snd kv));
      [apply untouched_updateDiagnostics | apply untouched_refl].
Qed.

Lemma untouched_onTreeChange (treeContainer : ITreeContainer Tree) p :
  untouched p
    (afterOutcome
       (onTreeChange lint typeInference getElmWorkspaceFor treeContainer p)).
Proof.
  unfold onTreeChange.
  destruct (getElmWorkspaceFor (tc_uri treeContainer)) as [[msg|name msg]|ws];
    simpl.
  - repeat split.
  - apply untouched_refl.
  - match goal with
    | |- context [if ?c then _ else _] => destruct c
    end; simpl.
    + eapply untouched_trans; apply untouched_updateDiagnostics.
    + apply untouched_updateDiagnostics.
Qed.

(** [getDiagnostics] keeps the listeners and the workspaces, and asks
    elm-analyse nothing when there is no elm-analyse source. *)
Lemma getDiagnostics_wiring (document : TextDocument) (isSaveOrOpen : bool)
  (trigger : ElmAnalyseTrigger) (elmMakeResult : JsMap.t (list Diagnostic)) p :
  let p' := getDiagnostics document isSaveOrOpen trigger elmMakeResult p in
  listenerTrigger p' = listenerTrigger p
  /\ elmAnalyseDiagnostics p' = elmAnalyseDiagnostics p
  /\ workspaces p' = workspaces p
  /\ (elmAnalyseDiagnostics p = false ->
      updateFileCalls p' = updateFileCalls p).
Proof.
  unfold getDiagnostics. cbv zeta.
  match goal with
  | |- context [if elmAnalyseDiagnostics ?q && _ && _ then _ else _] =>
      assert (U : untouched p q); [|set (p1 := q) in *]
  end.
  { destruct isSaveOrOpen.
    - eapply untouched_trans; [|apply untouched_updates]. repeat split.
    - repeat split. }
  destruct U as (U1 & U2 & U3 & U4). rewrite U2.
  destruct (elmAnalyseDiagnostics p); cbn [andb].
  - match goal with
    | |- context [if ?c then _ else _] => destruct c
    end; cbn; repeat split; try assumption; discriminate.
  - auto.
Qed.

Lemma handle_wiring (e : Event Tree) p :
  let p' := handle lint typeInference getElmWorkspaceFor p e in
  listenerTrigger p' = listenerTrigger p
  /\ elmAnalyseDiagnostics p' = elmAnalyseDiagnostics p
  /\ workspaces p' = workspaces p
  /\ (elmAnalyseDiagnostics p = false ->
      updateFileCalls p' = updateFileCalls p).
Proof.
  assert (K : forall q, untouched p q ->
                listenerTrigger q = listenerTrigger p
                /\ elmAnalyseDiagnostics q = elmAnalyseDiagnostics p
                /\ workspaces q = workspaces p
                /\ (elmAnalyseDiagnostics p = false ->
                    updateFileCalls q = updateFileCalls p))
    by (unfold untouched; tauto).
  destruct e as [ev doc res|changes|settings|tc|res|ms]; simpl.
  - unfold onTextDocumentEvent.
    destruct ev.
    + exact (getDiagnostics_wiring doc true (listenerTrigger p) res p).
    + exact (getDiagnostics_wiring doc true (listenerTrigger p) res p).
    + destruct (triggerEquals (listenerTrigger p) change).
      * exact (getDiagnostics_wiring doc false (listenerTrigger p) res p).
      * auto.
  - apply K. unfold onDidChangeWatchedFiles. apply untouched_fold.
    intros a uri. repeat split.
  - apply K, untouched_onDidChangeConfiguration.
  - apply K, untouched_onTreeChange.
  - apply K. destruct (elmAnalyseDiagnostics p).
    + unfold newElmAnalyseDiagnostics. apply untouched_updates.
    + apply untouched_refl.
  - apply K. now destruct (elapse_spec ms p) as (_ & _ & _ & _ & U).
Qed.

Lemma untouched_constructor_fold (elmWorkspaces : list (IElmWorkspace Tree))
  p :
  untouched p (fold_left (initWorkspace lint typeInference) elmWorkspaces p).
Proof.
  apply untouched_fold. intros a ws.
  unfold initWorkspace, JsMap.forEach. apply untouched_fold.
  intros a' kv. unfold initTreeContainer.
  destruct (writeable (snd kv)); [|apply untouched_refl].
  match goal with
  | |- context [if ?c then _ else _] => destruct c
  end.
  - eapply untouched_trans; apply untouched_updateDiagnostics.
  - apply untouched_updateDiagnostics.
Qed.

Lemma run_wiring (events : list (Event Tree)) (settings : IClientSettings)
  (resolved : bool) (elmWorkspaces : list (IElmWorkspace Tree)) :
  let source := negb (triggerEquals (elmAnalyseTrigger settings) never)
                && resolved in
  let p := run lint typeInference getElmWorkspaceFor events
             (constructor lint typeInference settings resolved elmWorkspaces) in
  listenerTrigger p = elmAnalyseTrigger settings
  /\ elmAnalyseDiagnostics p = source
  /\ workspaces p = elmWorkspaces
  /\ (source = false -> updateFileCalls p = []).
Proof.
  simpl. unfold run. apply ListenerFacts.fold_left_preserves.
  - intros a e (H1 & H2 & H3 & H4).
    destruct (handle_wiring e a) as (K1 & K2 & K3 & K4). simpl in *.
    rewrite K1, K2, K3. repeat split; try assumption.
    intros Hs. rewrite K4 by congruence. now apply H4.
  - unfold constructor.
    match goal with
    | |- context [fold_left _ _ ?q] =>
        destruct (untouched_constructor_fold elmWorkspaces q)
          as (U1 & U2 & U3 & U4)
    end.
    simpl in *. rewrite U1, U2, U3, U4. auto.
Qed.

(** X13. The listeners' trigger, the presence of the elm-analyse source and
    the workspaces are those the constructor fixed, whatever happens
    afterwards: no event of a run, a configuration change included, alters
    them. *)
Theorem listeners_fixed_at_construction (events : list (Event Tree))
  (settings : IClientSettings) (resolved : bool)
  (elmWorkspaces : list (IElmWorkspace Tree)) :
  let p := run lint typeInference getElmWorkspaceFor events
             (constructor lint typeInference settings resolved elmWorkspaces) in
  listenerTrigger p = elmAnalyseTrigger settings
  /\ elmAnalyseDiagnostics p
     = (negb (triggerEquals (elmAnalyseTrigger settings) never) && resolved)
  /\ workspaces p = elmWorkspaces.
Proof.
  destruct (run_wiring events settings resolved elmWorkspaces)
    as (H1 & H2 & H3 & _).
  simpl. auto.
Qed.

(** X14. A provider constructed with the trigger ["never"], or for which no
    elm-analyse source is resolved, never asks elm-analyse anything, in any
    run, also after configuration changes that set another trigger. *)
Theorem elm_analyse_is_never_asked (events : list (Event Tree))
  (settings : IClientSettings) (resolved : bool)
  (elmWorkspaces : list (IElmWorkspace Tree)) :
  negb (triggerEquals (elmAnalyseTrigger settings) never) && resolved = false ->
  updateFileCalls
    (run lint typeInference getElmWorkspaceFor events
       (constructor lint typeInference settings resolved elmWorkspaces))
  = [].
Proof.
  intros Hoff.
  destruct (run_wiring events settings resolved elmWorkspaces)
    as (_ & _ & _ & H).
  simpl in H. now apply H.
Qed.

(** ** The constructor *)

Lemma underConstruction_update (elmWorkspaces : list (IElmWorkspace Tree))
  (settings : IClientSettings) p uri kind ds :
  isWriteableTree elmWorkspaces uri ->
  kind = TypeInference
  \/ (kind = ElmLS /\ disableElmLSDiagnostics settings = false) ->
  underConstruction elmWorkspaces settings p ->
  underConstruction elmWorkspaces settings (updateDiagnostics uri kind ds p).
Proof.
  intros Huri Hkind (Hsent & Hcon & Hclock & Hset & Htracked & Hother & Hlint).
  pose proof (updateDiagnostics_frame p uri kind ds) as F. simpl in F.
  destruct F as (Fs & _ & _ & _ & Fclock & Fsent & Fcon & _).
  unfold underConstruction. rewrite Fs, Fclock, Fsent, Fcon.
  repeat split; try assumption.
  - intros u Hu. destruct (String.eqb_spec uri u) as [<-|Hne]; [assumption|].
    apply Htracked. apply has_true_get. apply has_true_get in Hu.
    now rewrite get_updateDiagnostics_ne in Hu.
  - rewrite stored_update_other_kind; [apply Hother|].
    destruct Hkind as [->|[-> _]]; discriminate.
  - rewrite stored_update_other_kind; [apply Hother|].
    destruct Hkind as [->|[-> _]]; discriminate.
  - intros Hoff u. destruct Hkind as [->|[_ Hon]]; [|congruence].
    rewrite stored_update_other_kind by discriminate. now apply Hlint.
Qed.

(** X15. The constructor sends and logs nothing: what it computes goes out
    through timers only.  The provider it returns tracks only writeable
    trees of the workspaces, holds no ElmMake and no ElmAnalyse list, and
    holds no ElmLS list when the settings disable the rule engine. *)
Theorem constructor_initial (settings : IClientSettings) (resolved : bool)
  (elmWorkspaces : list (IElmWorkspace Tree)) :
  let p := constructor lint typeInference settings resolved elmWorkspaces in
  sentDiagnostics p = []
  /\ consoleInfo p = []
  /\ clock p = 0
  /\ clientSettings p = settings
  /\ (forall u, JsMap.has u (currentDiagnostics p) = true ->
        isWriteableTree elmWorkspaces u)
  /\ (forall u, storedForKind ElmMake u p = []
                /\ storedForKind ElmAnalyse u p = [])
  /\ (disableElmLSDiagnostics settings = true ->
      forall u, storedForKind ElmLS u p = []).
Proof.
  change (underConstruction elmWorkspaces settings
            (constructor lint typeInference settings resolved elmWorkspaces)).
  unfold constructor.
  apply (fold_left_preserves_In (underConstruction elmWorkspaces settings)).
  - intros a ws Hws Ha. unfold initWorkspace, JsMap.forEach.
    apply (fold_left_preserves_In (underConstruction elmWorkspaces settings));
      [|exact Ha].
    intros a' [k tc] Hkv Ha'. unfold initTreeContainer. simpl.
    destruct (writeable tc) eqn:W; [|exact Ha'].
    assert (Huri : isWriteableTree elmWorkspaces (tc_uri tc))
      by (exists ws, k, tc; auto).
    assert (H1 : underConstruction elmWorkspaces settings
                   (updateDiagnostics (tc_uri tc) TypeInference
                      (typeInference tc ws) a'))
      by (apply underConstruction_update; auto).
    destruct H1 as (H1a & H1b & H1c & H1set & H1rest).
    rewrite H1set.
    destruct (disableElmLSDiagnostics settings) eqn:Hoff; simpl.
    + unfold underConstruction. rewrite Hoff. auto.
    + apply underConstruction_update; auto.
      unfold underConstruction. rewrite Hoff. auto.
  - unfold underConstruction. simpl. repeat split; try reflexivity.
    discriminate.
Qed.

(** ** Timers are due within the delay along every run *)

Lemma timely_updateDiagnostics p uri kind ds :
  timely p -> timely (updateDiagnostics uri kind ds p).
Proof.
  unfold timely. intros H.
  pose proof (updateDiagnostics_frame p uri kind ds) as F. simpl in F.
  destruct F as (_ & _ & _ & _ & -> & _).
  destruct (updateDiagnostics_arms p uri kind ds) as [->| ->]; [assumption|].
  apply Forall_app. split.
  - apply Forall_forall. intros t Ht. apply filter_In in Ht.
    rewrite Forall_forall in H. now apply H.
  - constructor; [simpl; lia | constructor].
Qed.

Lemma timely_elapse p (ms : nat) : timely p -> timely (elapse ms p).
Proof.
  unfold timely. intros H.
  destruct (elapse_spec ms p) as (_ & -> & _ & -> & _).
  apply Forall_forall. intros t Ht. apply filter_In in Ht.
  rewrite Forall_forall in H. destruct Ht as [Ht _].
  specialize (H t Ht). lia.
Qed.

Lemma timely_updates kind (jobs : JsMap.t (list Diagnostic)) p :
  timely p ->
  timely
    (JsMap.forEach (fun ds uri acc => updateDiagnostics uri kind ds acc)
       jobs p).
Proof.
  unfold JsMap.forEach. apply ListenerFacts.fold_left_preserves.
  intros a b. apply timely_updateDiagnostics.
Qed.

Lemma timely_handle (e : Event Tree) p :
  timely p -> timely (handle lint typeInference getElmWorkspaceFor p e).
Proof.
  intros H. destruct e as [ev doc res|changes|settings|tc|res|ms]; simpl.
  - assert (G : forall b, timely (getDiagnostics doc b (listenerTrigger p)
                                    res p)).
    { intros b. unfold getDiagnostics. cbv zeta.
      match goal with
      | |- timely (if ?c then elmAnalyse_updateFile ?u ?t ?q else ?q) =>
          assert (Hq : timely q); [|destruct c; exact Hq]
      end.
      destruct b; [apply timely_updates|]; exact H. }
    unfold onTextDocumentEvent. destruct ev; try apply G.
    destruct (triggerEquals (listenerTrigger p) change); [apply G | exact H].
  - unfold onDidChangeWatchedFiles. apply ListenerFacts.fold_left_preserves.
    + intros a uri Ha. exact Ha.
    + exact H.
  - unfold onDidChangeConfiguration. simpl.
    destruct (disableElmLSDiagnostics settings).
    + unfold JsMap.forEach. apply ListenerFacts.fold_left_preserves.
      * intros a b. apply timely_updateDiagnostics.
      * exact H.
    + apply ListenerFacts.fold_left_preserves; [|exact H].
      intros a ws. unfold relintWorkspace, JsMap.forEach.
      apply ListenerFacts.fold_left_preserves. intros a' kv.
      unfold relintTreeContainer.
      destruct (writeable (snd kv)); [apply timely_updateDiagnostics | auto].
  - unfold onTreeChange.
    destruct (getElmWorkspaceFor (tc_uri tc)) as [[msg|name msg]|ws]; simpl;
      try exact H.
    match goal with
    | |- context [if ?c then _ else _] => destruct c
    end; simpl; repeat apply timely_updateDiagnostics; exact H.
  - destruct (elmAnalyseDiagnostics p); [|exact H].
    unfold newElmAnalyseDiagnostics. now apply timely_updates.
  - now apply timely_elapse.
Qed.

(** In every provider met in a run, no pending timer is due later than
    50 ms from now. *)
Lemma timely_run (events : list (Event Tree)) (settings : IClientSettings)
  (resolved : bool) (elmWorkspaces : list (IElmWorkspace Tree)) :
  timely
    (run lint typeInference getElmWorkspaceFor events
       (constructor lint typeInference settings resolved elmWorkspaces)).
Proof.
  unfold run. apply ListenerFacts.fold_left_preserves.
  - intros a e. apply timely_handle.
  - unfold constructor. apply ListenerFacts.fold_left_preserves.
    + intros a ws. unfold initWorkspace, JsMap.forEach.
      apply ListenerFacts.fold_left_preserves. intros a' kv.
      unfold initTreeContainer.
      destruct (writeable (snd kv)); [|auto].
      match goal with
      | |- context [if ?c then _ else _] => destruct c
      end; intros Ha; repeat apply timely_updateDiagnostics; exact Ha.
    + constructor.
Qed.

(** ** Open and save: the build decides whether elm-analyse is asked *)

(** X16. On an open or save, once the build has resolved, elm-analyse is
    asked to analyse the document exactly when the elm-analyse source
    exists, the trigger is not ["never"], and the build reported nothing for
    the document (no entry, or an empty list); it is then asked once, with
    the document's URI and text. *)
Theorem save_asks_elm_analyse_when_build_is_clean (document : TextDocument)
  (trigger : ElmAnalyseTrigger) (elmMakeResult : JsMap.t (list Diagnostic)) p :
  JsMap.wf (currentDiagnostics p) -> JsMap.wf elmMakeResult ->
  updateFileCalls (getDiagnostics document true trigger elmMakeResult p)
  = if elmAnalyseDiagnostics p
       && negb (triggerEquals trigger never)
       && match JsMap.get (doc_uri document) elmMakeResult with
          | Some (_ :: _) => false
          | _ => true
          end
    then updateFileCalls p ++ [(doc_uri document, doc_text document)]
    else updateFileCalls p.
Proof.
  intros Hwf Hres.
  set (p0 := console_info
               "Diagnostics were requested due to a file open or save" p).
  destruct (@bulk_replace ElmMake elmMakeResult p0 Hwf Hres) as [Hst _].
  pose proof (untouched_updates ElmMake
                (resetDiagnostics elmMakeResult ElmMake p0) p0) as U.
  destruct U as (_ & U2 & _ & U4).
  set (p1 := JsMap.forEach
               (fun ds uri acc => updateDiagnostics uri ElmMake ds acc)
               (resetDiagnostics elmMakeResult ElmMake p0) p0) in *.
  assert (E : getDiagnostics document true trigger elmMakeResult p
              = if elmAnalyseDiagnostics p1
                   && negb (triggerEquals trigger never)
                   && Nat.eqb
                        (length (storedForKind ElmMake (doc_uri document) p1))
                        0
                then elmAnalyse_updateFile (doc_uri document)
                       (doc_text document) p1
                else p1) by reflexivity.
  rewrite E, U2, (Hst (doc_uri document)).
  change (elmAnalyseDiagnostics p0) with (elmAnalyseDiagnostics p).
  change (updateFileCalls p0) with (updateFileCalls p) in U4.
  destruct (elmAnalyseDiagnostics p && negb (triggerEquals trigger never));
    simpl.
  - destruct (JsMap.get (doc_uri document) elmMakeResult) as [[|d l]|];
      simpl; now rewrite U4.
  - exact U4.
Qed.

End Facts.

End ProviderMore.

(* ===================================================================== *)
(** * More statements at concrete inputs *)
(* ===================================================================== *)

Module MoreInstances.

Import Runs.

Lemma wf_dep_results : JsMap.wf [(depUri, [d2])].
Proof.
  unfold JsMap.wf. simpl. constructor; [intros [] | constructor].
Defined.

Lemma wf_main_results : JsMap.wf [(mainUri, [d2])].
Proof.
  unfold JsMap.wf. simpl. constructor; [intros [] | constructor].
Defined.

(** X3: [Main.elm] is deleted and [Dep.elm] is changed. *)
Lemma onDidChangeWatchedFiles_deletes_witness :
  JsMap.wf (currentDiagnostics burst_second)
  /\ sentDiagnostics
       (onDidChangeWatchedFiles
          [mkFileEvent mainUri Deleted; mkFileEvent depUri Changed]
          burst_second)
     = sentDiagnostics burst_second ++ [mkPublish mainUri []].
Proof.
  split; [exact Instances.wf_burst_second|].
  pose proof (@ProviderMore.onDidChangeWatchedFiles_deletes unit
                [mkFileEvent mainUri Deleted; mkFileEvent depUri Changed]
                burst_second Instances.wf_burst_second) as H.
  simpl in H. destruct H as (H & _). exact H.
Defined.

(** X6: elm-analyse reports on [Dep.elm] only. *)
Lemma newElmAnalyseDiagnostics_replaces_witness :
  JsMap.wf (currentDiagnostics burst_second)
  /\ JsMap.wf [(depUri, [d2])]
  /\ storedForKind ElmAnalyse depUri
       (newElmAnalyseDiagnostics [(depUri, [d2])] burst_second)
     = [d2].
Proof.
  split; [exact Instances.wf_burst_second|]. split; [exact wf_dep_results|].
  pose proof (@ProviderMore.newElmAnalyseDiagnostics_replaces unit
                [(depUri, [d2])] burst_second
                Instances.wf_burst_second wf_dep_results) as H.
  simpl in H. destruct H as (H & _). exact (H depUri).
Defined.

(** X7: the build reports on [Main.elm]. *)
Lemma getDiagnostics_applies_build_witness :
  JsMap.wf (currentDiagnostics burst_second)
  /\ JsMap.wf [(mainUri, [d2])]
  /\ storedForKind ElmMake mainUri
       (getDiagnostics (mkTextDocument mainUri "module Main exposing (..)")
          true change [(mainUri, [d2])] burst_second)
     = [d2].
Proof.
  split; [exact Instances.wf_burst_second|]. split; [exact wf_main_results|].
  pose proof (@ProviderMore.getDiagnostics_applies_build unit
                (mkTextDocument mainUri "module Main exposing (..)")
                change [(mainUri, [d2])] burst_second
                Instances.wf_burst_second wf_main_results) as H.
  simpl in H. destruct H as (H & _). exact (H mainUri).
Defined.

(** X8: the ElmLS list of [Main.elm] is delivered again. *)
Lemma updateDiagnostics_same_list_is_silent_witness :
  storedForKind ElmLS mainUri burst_second = [d1]
  /\ updateDiagnostics mainUri ElmLS [d1] burst_second = burst_second.
Proof.
  split; [reflexivity|].
  apply (@ProviderMore.updateDiagnostics_same_list_is_silent unit
           burst_second mainUri ElmLS [d1]).
  reflexivity.
Defined.

(** X9: the tree of [Dep.elm], which is not writeable, changes. *)
Lemma onTreeChange_recomputes_witness :
  inDepWorkspace (tc_uri depContainer) = inr depWorkspace
  /\ exists p',
       onTreeChange lintFinds noTypeErrors inDepWorkspace depContainer
         depStart
       = Returned p'
       /\ storedForKind ElmLS depUri p' = [d1].
Proof.
  split; [reflexivity|].
  destruct (@ProviderMore.onTreeChange_recomputes unit lintFinds noTypeErrors
              inDepWorkspace depContainer depStart depWorkspace eq_refl)
    as (p' & E & _ & L & _).
  exists p'. split; [exact E | exact L].
Defined.

(** X10: the rule engine is switched off, then the tree of [Dep.elm]
    changes. *)
Lemma lint_stays_off_witness :
  disableElmLSDiagnostics lintOff = true
  /\ storedForKind ElmLS depUri
       (afterOutcome
          (onTreeChange lintFinds noTypeErrors inDepWorkspace depContainer
             (onDidChangeConfiguration lintFinds lintOff depTracked)))
     = [].
Proof.
  split; [reflexivity|].
  apply (@ProviderMore.lint_stays_off unit lintFinds noTypeErrors
           inDepWorkspace lintOff depContainer depTracked).
  reflexivity.
Defined.

(** X11: the first update of [Main.elm] on the idle provider. *)
Lemma scheduled_update_is_published_witness :
  timely idle
  /\ timers (updateDiagnostics mainUri ElmLS [d1] idle) <> timers idle
  /\ timers (elapse 50 (updateDiagnostics mainUri ElmLS [d1] idle)) = [].
Proof.
  assert (H1 : timely idle) by constructor.
  assert (H2 : timers (updateDiagnostics mainUri ElmLS [d1] idle)
               <> timers idle) by discriminate.
  split; [exact H1|]. split; [exact H2|].
  pose proof (@ProviderMore.scheduled_update_is_published unit idle mainUri
                ElmLS [d1] H1 H2) as H.
  simpl in H. destruct H as (H & _). exact H.
Defined.

(** X12: [Main.elm] is deleted while two timers are pending for it. *)
Lemma deleted_file_is_published_empty_witness :
  JsMap.wf (currentDiagnostics burst_second)
  /\ timers (deleteDiagnostics mainUri burst_second) = timers burst_second.
Proof.
  split; [exact Instances.wf_burst_second|].
  pose proof (@ProviderMore.deleted_file_is_published_empty unit
                burst_second mainUri 50 Instances.wf_burst_second) as H.
  simpl in H. destruct H as (H & _). exact H.
Defined.

(** X14: constructed with the trigger ["never"]; the settings then change
    to the trigger ["change"] and a document is saved. *)
Lemma elm_analyse_is_never_asked_witness :
  negb (triggerEquals (elmAnalyseTrigger (mkClientSettings false never)) never)
  && true = false
  /\ updateFileCalls
       (run lintFinds noTypeErrors inDepWorkspace
          [ ConfigurationChanged unit lintOn;
            DocumentEvent unit EvSave
              (mkTextDocument mainUri "module Main exposing (..)") [] ]
          (constructor lintFinds noTypeErrors (mkClientSettings false never)
             true [depWorkspace]))
     = [].
Proof.
  split; [reflexivity|].
  apply (@ProviderMore.elm_analyse_is_never_asked unit lintFinds noTypeErrors
           inDepWorkspace).
  reflexivity.
Defined.

(** X16: a save of [Main.elm] with a build that reports on [Dep.elm]
    only. *)
Lemma save_asks_elm_analyse_when_build_is_clean_witness :
  JsMap.wf (currentDiagnostics burst_second)
  /\ JsMap.wf [(depUri, [d2])]
  /\ updateFileCalls
       (getDiagnostics (mkTextDocument mainUri "module Main exposing (..)")
          true change [(depUri, [d2])] burst_second)
     = [(mainUri, "module Main exposing (..)")].
Proof.
  split; [exact Instances.wf_burst_second|]. split; [exact wf_dep_results|].
  rewrite (@ProviderMore.save_asks_elm_analyse_when_build_is_clean unit
             (mkTextDocument mainUri "module Main exposing (..)")
             change [(depUri, [d2])] burst_second
             Instances.wf_burst_second wf_dep_results).
  reflexivity.
Defined.

End MoreInstances.
